(** * Stack-trace parsing of the Node SDK ([packages/node/src/parsers.ts])

    A shallow embedding of the functions that turn a JavaScript error
    object into an event record: [getFunction], [getModule],
    [readSourceFiles], [extractStackFromError], [parseStack],
    [addPrePostContext], [getExceptionFromError], [parseError] and
    [prepareFramesForEvent].

    Conventions of the embedding.
    - A JavaScript string is a [string]; one character stands for one code
      unit, so lengths and indices agree with the source on ASCII text.
    - A JavaScript number that the code uses as a line, a column or an index
      is an integer in [Z]; an absent one ([null] or [undefined]) is [None].
    - A computation that may raise is a value of [result]; [await] is
      sequencing, a rejected promise is a raised exception.
    - Arrays that the code updates in place live in a store ([heap]). *)

From Stdlib Require Import ZArith String Ascii List Lia.
From stdpp Require Import base option list gmap strings pretty.

Local Open Scope string_scope.
Local Open Scope Z_scope.

(** ** JavaScript string primitives used by the parsers *)

Module JsString.

(** [s.startsWith(p)]. *)
Definition startsWith (s p : string) : bool := String.prefix p s.

(** Offset of the first occurrence of [p] in [s]. *)
Fixpoint find_first (p s : string) : option nat :=
  if String.prefix p s then Some O
  else match s with
       | EmptyString => None
       | String _ s' => S <$> find_first p s'
       end.

(** Offset of the last occurrence of [p] in [s] that starts at an offset
    not above [limit]. *)
Fixpoint find_last_upto (p s : string) (limit : nat) : option nat :=
  match limit, s with
  | S limit', String _ s' =>
      match find_last_upto p s' limit' with
      | Some k => Some (S k)
      | None => if String.prefix p s then Some O else None
      end
  | _, _ => if String.prefix p s then Some O else None
  end.

Definition index_or_minus_one (r : option nat) : Z :=
  match r with Some k => Z.of_nat k | None => -1 end.

(** [s.indexOf(p)]. *)
Definition indexOf (s p : string) : Z := index_or_minus_one (find_first p s).

(** [s.includes(p)]. *)
Definition includes (s p : string) : bool := bool_decide (is_Some (find_first p s)).

(** [s.lastIndexOf(p, fromIndex)]; an absent [fromIndex] is the end of the
    string, a negative one is 0. *)
Definition lastIndexOf (s p : string) (fromIndex : option Z) : Z :=
  let limit := match fromIndex with
               | None => String.length s
               | Some i => Z.to_nat (Z.max 0 i)
               end in
  index_or_minus_one (find_last_upto p s limit).

(** [s.substr(start)] for a [start] that is not negative. *)
Definition substr (s : string) (start : Z) : string :=
  let n := Z.to_nat start in
  String.substring n (String.length s - n)%nat s.

(** [s.replace(/\//g, '.')]. *)
Fixpoint replace_slashes (s : string) : string :=
  match s with
  | EmptyString => EmptyString
  | String c s' => String (if Ascii.eqb c "/" then "."%char else c) (replace_slashes s')
  end.

(** The pieces of [s.split('\n')]; [cur] holds the piece being read,
    reversed. *)
Fixpoint split_lines_aux (s : string) (cur : list ascii) : list string :=
  match s with
  | EmptyString => [string_of_list_ascii (rev cur)]
  | String c s' =>
      if Ascii.eqb c "010"
      then string_of_list_ascii (rev cur) :: split_lines_aux s' []
      else split_lines_aux s' (c :: cur)
  end.

(** [s.split('\n')]. *)
Definition split_lines (s : string) : list string := split_lines_aux s [].

End JsString.

(** ** JavaScript array primitives used by the parsers *)

Module JsArray.

(** The clamping of a relative index that [Array.prototype.slice] applies
    to both of its arguments. *)
Definition clamp_index (len i : Z) : Z :=
  if i <? 0 then Z.max (len + i) 0 else Z.min i len.

(** [arr.slice(from, to)]. *)
Definition slice {A} (arr : list A) (from to : Z) : list A :=
  let len := Z.of_nat (length arr) in
  let k := clamp_index len from in
  let final := clamp_index len to in
  take (Z.to_nat (final - k)) (drop (Z.to_nat k) arr).

(** [arr[i]]: [None] is [undefined]. *)
Definition at_index {A} (arr : list A) (i : Z) : option A :=
  if i <? 0 then None else arr !! Z.to_nat i.

End JsArray.

(** ** JavaScript values, exceptions and objects *)

(** Plain data values: primitives and objects that carry data properties
    only.  An object lists its own enumerable properties in the order of
    [Object.keys], and apart from them every other property that a lookup
    can reach: own properties that are not enumerable and those of its
    prototype chain. *)
Inductive jsval : Type :=
| VUndefined
| VNull
| VBool (b : bool)
| VNum (n : Z)
| VStr (s : string)
| VObject (o : jsobject)
with jsobject : Type :=
| JsObject (own_enumerable : list (string * jsval)) (other_properties : list (string * jsval)).

Definition own_enumerable (o : jsobject) : list (string * jsval) :=
  match o with JsObject e _ => e end.

Definition other_properties (o : jsobject) : list (string * jsval) :=
  match o with JsObject _ r => r end.

(** What a getter of the stack library returns where a string is expected. *)
Inductive nullable_string : Type :=
| NNull
| NUndefined
| NStr (s : string).

(** Raised values.  [TypeError] is what the engine raises on a property
    access on [undefined] or [null] and on a call of something that is not
    a function; [Raised] is anything a collaborator throws. *)
Inductive exn : Type :=
| TypeError (msg : string)
| Raised (v : jsval).

Inductive result (A : Type) : Type :=
| Ok (a : A)
| Throw (e : exn).

Arguments Ok {A} a.
Arguments Throw {A} e.

(** Sequencing: an exception of the first step skips the rest.  This gives
    [result] the notation [x ← r; k]. *)
#[global] Instance result_ret : MRet result := fun A a => Ok a.

#[global] Instance result_bind : MBind result := fun A B k r =>
  match r with
  | Ok a => k a
  | Throw e => Throw e
  end.

(** [arr.map(f)] for a callback that may raise: the first exception ends
    the traversal. *)
Fixpoint result_map {A B} (f : A -> result B) (l : list A) : result (list B) :=
  match l with
  | [] => Ok []
  | x :: l' =>
      y ← f x;
      ys ← result_map f l';
      Ok (y :: ys)
  end.

Module Js.

(** First binding of [k] in a property list. *)
Fixpoint assoc {V} (k : string) (ps : list (string * V)) : option V :=
  match ps with
  | [] => None
  | (k', v) :: ps' => if String.eqb k k' then Some v else assoc k ps'
  end.

(** [o[k]] on an object: own properties first, then the rest of the
    chain; [undefined] when there is none. *)
Definition get (o : jsobject) (k : string) : jsval :=
  match assoc k (own_enumerable o) with
  | Some v => v
  | None => default VUndefined (assoc k (other_properties o))
  end.

(** [o[k] = v] on a property list: overwrite in place or append. *)
Fixpoint set {V} (ps : list (string * V)) (k : string) (v : V) : list (string * V) :=
  match ps with
  | [] => [(k, v)]
  | (k', v') :: ps' => if String.eqb k k' then (k, v) :: ps' else (k', v') :: set ps' k v
  end.

(** [Object.keys(o)]. *)
Definition keys (o : jsobject) : list string := (own_enumerable o).*1.

(** ToBoolean. *)
Definition truthy (v : jsval) : bool :=
  match v with
  | VUndefined | VNull => false
  | VBool b => b
  | VNum n => negb (n =? 0)
  | VStr s => negb (String.eqb s "")
  | VObject _ => true
  end.

(** [a || b]. *)
Definition or (a b : jsval) : jsval := if truthy a then a else b.

(** [v.name]: raises on [undefined] and [null]; a primitive has no such
    property. *)
Definition name_of (v : jsval) : result jsval :=
  match v with
  | VUndefined => Throw (TypeError "Cannot read property 'name' of undefined")
  | VNull => Throw (TypeError "Cannot read property 'name' of null")
  | VObject o => Ok (get o "name")
  | _ => Ok VUndefined
  end.

Definition truthy_name (n : nullable_string) : bool :=
  match n with
  | NStr s => negb (String.eqb s "")
  | _ => false
  end.

Definition name_to_string (n : nullable_string) : string :=
  match n with
  | NNull => "null"
  | NUndefined => "undefined"
  | NStr s => s
  end.

(** [n || d] for a string default [d]. *)
Definition name_or (n : nullable_string) (d : string) : string :=
  match n with
  | NStr s => if String.eqb s "" then d else s
  | _ => d
  end.

(** [n || 0]. *)
Definition num_or_zero (n : option Z) : Z := default 0 n.

(** [key in arr] for an array of [len] elements: its indices, [length],
    and whatever it inherits. *)
Definition in_array (inherited : list string) (len : nat) (key : string) : bool :=
  existsb (fun i => String.eqb key (pretty (Z.of_nat i))) (seq 0 len)
  || String.eqb key "length"
  || existsb (String.eqb key) inherited.

End Js.

(** ** Data model *)

(** A call site as the stack library hands it over
    ([stacktrace.StackFrame]).  The getters for the function, type and
    method names may raise. *)
Record CallSite : Type := {
  getColumnNumber : option Z;
  getFileName : nullable_string;
  getFunctionName : result nullable_string;
  getTypeName : result nullable_string;
  getMethodName : result nullable_string;
  getLineNumber : option Z;
  isNative : bool
}.

(** [StackFrame] of [@sentry/types]: every field is optional. *)
Record StackFrame : Type := {
  colno : option Z;
  filename : option string;
  function : option string;
  lineno : option Z;
  in_app : option bool;
  module : option string;
  pre_context : option (list string);
  context_line : option string;
  post_context : option (list string)
}.

(** [SentryException]. *)
Record SentryException : Type := {
  frames : list StackFrame;
  type : jsval;
  value : jsval
}.

(** [SentryEvent]: [extra] is an object from a type name to the object of
    collected properties. *)
Record SentryEvent : Type := {
  exception_values : list SentryException;
  message : string;
  extra : option (list (string * list (string * jsval)))
}.

(** What the module takes from outside: the entry directory computed at
    load time, the [stack-trace] parser, [readFileAsync] of
    [@sentry/utils/fs], [snipLine] of [@sentry/utils/string] (which may be
    handed [undefined] for a line), the property names that the engine's
    [Array.prototype] and [Object.prototype] provide, and the two
    conversions to text that the data model does not determine: that of a
    number beyond the safe integers (the engine prints the shortest digits
    that identify it, in exponent form from 1e21 on), and that of an object
    (the engine calls its [toString] and [valueOf], which are functions, and
    raises a [TypeError] when neither gives a primitive). *)
Record Host : Type := {
  mainModule : string;
  stacktrace_parse : jsobject -> result (option (list CallSite));
  readFileAsync : string -> result jsval;
  snipLine : option string -> Z -> result string;
  array_prototype_keys : list string;
  object_prototype_keys : list string;
  number_to_string : Z -> string;
  object_to_string : jsobject -> result string
}.

(** [Number.MAX_SAFE_INTEGER]: up to it every integer is a number of the
    engine and prints as its digits. *)
Definition MAX_SAFE_INTEGER : Z := 9007199254740991.

(** ToString, as a template literal and a computed property key apply
    it. *)
Definition to_string (host : Host) (v : jsval) : result string :=
  match v with
  | VUndefined => Ok "undefined"
  | VNull => Ok "null"
  | VBool true => Ok "true"
  | VBool false => Ok "false"
  | VNum n => Ok (if Z.abs n <=? MAX_SAFE_INTEGER then pretty n else number_to_string host n)
  | VStr s => Ok s
  | VObject o => object_to_string host o
  end.

(** ** The two functions of Node's [path] module that [getModule] calls

    The POSIX variants, as loops over the code units from the end of the
    path, with the loop variables of the library. *)

Module NodePath.

Definition is_slash (path : string) (i : nat) : bool :=
  match String.get i path with
  | Some c => Ascii.eqb c "/"
  | None => false
  end.

(** [path.slice(from, to)] for offsets inside the string. *)
Definition str_slice (path : string) (from to : Z) : string :=
  String.substring (Z.to_nat from) (Z.to_nat (to - from)) path.

(** The loop of [dirname]: [i] runs from the last offset down to 1 and
    stops at the first slash that follows a character that is not one. *)
Fixpoint dirname_scan (path : string) (i : nat) (matchedSlash : bool) : option nat :=
  match i with
  | O => None
  | S i' =>
      if is_slash path i
      then if matchedSlash then dirname_scan path i' true else Some i
      else dirname_scan path i' false
  end.

(** [path.dirname(p)]. *)
Definition dirname (path : string) : string :=
  if String.eqb path "" then "."
  else
    let hasRoot := is_slash path 0 in
    match dirname_scan path (String.length path - 1)%nat true with
    | None => if hasRoot then "/" else "."
    | Some e =>
        if hasRoot && (e =? 1)%nat then "//"
        else str_slice path 0 (Z.of_nat e)
    end.

(** Loop variables of [basename]. *)
Record scan : Type := {
  start : Z;
  end_ : Z;
  matchedSlash : bool;
  extIdx : Z;
  firstNonSlashEnd : Z
}.

(** The loop of [basename] without an extension; [c] is the offset under
    inspection plus one. *)
Fixpoint basename_scan (path : string) (c : nat) (st : scan) : scan :=
  match c with
  | O => st
  | S i =>
      if is_slash path i
      then if matchedSlash st
           then basename_scan path i st
           else {| start := Z.of_nat i + 1; end_ := end_ st; matchedSlash := matchedSlash st;
                   extIdx := extIdx st; firstNonSlashEnd := firstNonSlashEnd st |}
      else if end_ st =? -1
           then basename_scan path i
                  {| start := start st; end_ := Z.of_nat i + 1; matchedSlash := false;
                     extIdx := extIdx st; firstNonSlashEnd := firstNonSlashEnd st |}
           else basename_scan path i st
  end.

(** One step of the extension matching inside the loop of [basename] at
    offset [i], for a character that is not a slash. *)
Definition match_ext (path ext : string) (i : nat) (st : scan) : scan :=
  let st1 :=
    if firstNonSlashEnd st =? -1
    then {| start := start st; end_ := end_ st; matchedSlash := false;
            extIdx := extIdx st; firstNonSlashEnd := Z.of_nat i + 1 |}
    else st in
  if extIdx st1 >=? 0
  then
    if bool_decide (String.get i path = String.get (Z.to_nat (extIdx st1)) ext)
    then
      let idx := extIdx st1 - 1 in
      {| start := start st1; end_ := (if idx =? -1 then Z.of_nat i else end_ st1);
         matchedSlash := matchedSlash st1; extIdx := idx;
         firstNonSlashEnd := firstNonSlashEnd st1 |}
    else
      {| start := start st1; end_ := firstNonSlashEnd st1; matchedSlash := matchedSlash st1;
         extIdx := -1; firstNonSlashEnd := firstNonSlashEnd st1 |}
  else st1.

(** The loop of [basename] with an extension. *)
Fixpoint basename_ext_scan (path ext : string) (c : nat) (st : scan) : scan :=
  match c with
  | O => st
  | S i =>
      if is_slash path i
      then if matchedSlash st
           then basename_ext_scan path ext i st
           else {| start := Z.of_nat i + 1; end_ := end_ st; matchedSlash := matchedSlash st;
                   extIdx := extIdx st; firstNonSlashEnd := firstNonSlashEnd st |}
      else basename_ext_scan path ext i (match_ext path ext i st)
  end.

(** [path.basename(p, ext)]. *)
Definition basename (path ext : string) : string :=
  let len := String.length path in
  let elen := String.length ext in
  if (0 <? elen)%nat && (elen <=? len)%nat
  then
    if String.eqb ext path then ""
    else
      let st := basename_ext_scan path ext len
                  {| start := 0; end_ := -1; matchedSlash := true;
                     extIdx := Z.of_nat elen - 1; firstNonSlashEnd := -1 |} in
      let e := if start st =? end_ st then firstNonSlashEnd st
               else if end_ st =? -1 then Z.of_nat len
               else end_ st in
      str_slice path (start st) e
  else
    let st := basename_scan path len
                {| start := 0; end_ := -1; matchedSlash := true;
                   extIdx := -1; firstNonSlashEnd := -1 |} in
    if end_ st =? -1 then "" else str_slice path (start st) (end_ st).

End NodePath.

(** ** The parsers *)

Definition LINES_OF_CONTEXT : Z := 7.

(** The object [sourceFiles] of contents by file name. *)
Abbreviation source_files := (gmap string string) (only parsing).

(** The store of frame arrays; a reference is a key of the store. *)
Abbreviation heap := (gmap nat (list StackFrame)) (only parsing).

(** The constant [mainModule]: the directory of the main entry file when
    the process has one with a file name, else the working directory, and
    a slash.  [main_filename] is the value of
    [require.main && require.main.filename]. *)
Definition computeMainModule (main_filename : nullable_string) (cwd : string) : string :=
  let dir :=
    match main_filename with
    | NStr f => if String.eqb f "" then "" else NodePath.dirname f
    | _ => ""
    end in
  (if String.eqb dir "" then cwd else dir) ++ "/".

Section Parsers.

Variable host : Host.

(** [getFunction]: the [try] covers the three getters. *)
Definition getFunction (frame : CallSite) : string :=
  let attempt : result string :=
    fn ← getFunctionName frame;
    if Js.truthy_name fn then Ok (Js.name_to_string fn)
    else
      ty ← getTypeName frame;
      me ← getMethodName frame;
      Ok (Js.name_to_string ty ++ "." ++ Js.name_or me "<anonymous>") in
  match attempt with
  | Ok s => s
  | Throw _ => "<anonymous>"
  end.

(** [getModule]. *)
Definition getModule (filename : string) (base : option string) : string :=
  let base :=
    match base with
    | Some b => if String.eqb b "" then mainModule host else b
    | None => mainModule host
    end in
  let file := NodePath.basename filename ".js" in
  let filename := NodePath.dirname filename in
  let n := JsString.lastIndexOf filename "/node_modules/" None in
  if n >? -1
  then JsString.replace_slashes (JsString.substr filename (n + 14)) ++ ":" ++ file
  else
    let n := JsString.lastIndexOf (filename ++ "/") base (Some 0) in
    if n =? 0
    then
      let moduleName :=
        JsString.replace_slashes (JsString.substr filename (Z.of_nat (String.length base))) in
      let moduleName := if String.eqb moduleName "" then moduleName else moduleName ++ ":" in
      moduleName ++ file
    else file.

(** [sourceFiles[filename] = content] on an object literal: the key
    [__proto__] reaches the setter of the prototype, which ignores a
    string, every other key becomes an own property. *)
Definition store_source (sourceFiles : source_files) (filename content : string)
  : source_files :=
  if String.eqb filename "__proto__" then sourceFiles
  else <[filename := content]> sourceFiles.

(** [sourceFiles[filename]]: an own entry, else a member inherited from
    [Object.prototype] (something that is not a string), else
    [undefined]. *)
Definition lookup_source (sourceFiles : source_files) (filename : string) : jsval :=
  match sourceFiles !! filename with
  | Some content => VStr content
  | None =>
      if existsb (String.eqb filename) (object_prototype_keys host)
      then VObject (JsObject [] [])
      else VUndefined
  end.

(** The callback of [readSourceFiles] for one file name: a failed read is
    caught, and only a string is kept. *)
Definition readSourceFile (sourceFiles : source_files) (filename : string) : source_files :=
  let content :=
    match readFileAsync host filename with
    | Ok c => c
    | Throw _ => VNull
    end in
  match content with
  | VStr s => store_source sourceFiles filename s
  | _ => sourceFiles
  end.

(** [readSourceFiles]: every read settles before the object is returned. *)
Definition readSourceFiles (filenames : list string) : source_files :=
  match filenames with
  | [] => ∅
  | _ => foldl readSourceFile ∅ filenames
  end.

(** [extractStackFromError]. *)
Definition extractStackFromError (error : jsobject) : result (list CallSite) :=
  stack ← stacktrace_parse host error;
  match stack with
  | None => Ok []
  | Some stack => Ok stack
  end.

(** The value of [isInternal] in [parseStack], as a truth value. *)
Definition isInternal (frame : CallSite) (parsed_filename : string) : bool :=
  isNative frame
  || (negb (String.eqb parsed_filename "")
      && negb (JsString.startsWith parsed_filename "/")
      && negb (JsString.startsWith parsed_filename ".")
      && negb (JsString.indexOf parsed_filename ":\" =? 1)).

(** The callback of [stack.map] in [parseStack]; the second component is
    [filesToRead] after the call. *)
Definition parseFrame (frame : CallSite) (filesToRead : list string)
  : StackFrame * list string :=
  let parsed_filename := Js.name_or (getFileName frame) "" in
  let parsed_function := getFunction frame in
  let internal := isInternal frame parsed_filename in
  let parsed_in_app :=
    negb internal
    && bool_decide (Some parsed_filename ≠ None)
    && negb (JsString.includes parsed_filename "node_modules/") in
  let named := negb (String.eqb parsed_filename "") in
  ({| colno := getColumnNumber frame;
      filename := Some parsed_filename;
      function := Some parsed_function;
      lineno := getLineNumber frame;
      in_app := Some parsed_in_app;
      module := if named then Some (getModule parsed_filename None) else None;
      pre_context := None;
      context_line := None;
      post_context := None |},
   if named && negb internal then (filesToRead ++ [parsed_filename])%list else filesToRead).

(** [stack.map] with its pushes to [filesToRead], front to back. *)
Fixpoint parseFrames (stack : list CallSite) (filesToRead : list string)
  : list StackFrame * list string :=
  match stack with
  | [] => ([], filesToRead)
  | frame :: stack' =>
      let '(parsed, filesToRead) := parseFrame frame filesToRead in
      let '(rest, filesToRead) := parseFrames stack' filesToRead in
      (parsed :: rest, filesToRead)
  end.

Definition set_pre_context (frame : StackFrame) (v : list string) : StackFrame :=
  {| colno := colno frame; filename := filename frame; function := function frame;
     lineno := lineno frame; in_app := in_app frame; module := module frame;
     pre_context := Some v; context_line := context_line frame;
     post_context := post_context frame |}.

Definition set_context_line (frame : StackFrame) (v : string) : StackFrame :=
  {| colno := colno frame; filename := filename frame; function := function frame;
     lineno := lineno frame; in_app := in_app frame; module := module frame;
     pre_context := pre_context frame; context_line := Some v;
     post_context := post_context frame |}.

Definition set_post_context (frame : StackFrame) (v : list string) : StackFrame :=
  {| colno := colno frame; filename := filename frame; function := function frame;
     lineno := lineno frame; in_app := in_app frame; module := module frame;
     pre_context := pre_context frame; context_line := context_line frame;
     post_context := Some v |}.

(** The three assignments of the [try] block in [addPrePostContext] on
    the lines of the file.  The frame is updated in place, so an
    exception leaves the assignments made before it. *)
Definition addContextLines (lines : list string) (frame : StackFrame) : StackFrame :=
  let n := Js.num_or_zero (lineno frame) in
  match result_map (fun line => snipLine host (Some line) 0)
          (JsArray.slice lines (Z.max 0 (n - (LINES_OF_CONTEXT + 1))) (n - 1)) with
  | Throw _ => frame
  | Ok pre =>
      let frame := set_pre_context frame pre in
      match snipLine host (JsArray.at_index lines (n - 1)) (Js.num_or_zero (colno frame)) with
      | Throw _ => frame
      | Ok line =>
          let frame := set_context_line frame line in
          match result_map (fun line => snipLine host (Some line) 0)
                  (JsArray.slice lines n (n + LINES_OF_CONTEXT)) with
          | Throw _ => frame
          | Ok post => set_post_context frame post
          end
      end
  end.

(** The callback of [frames.map] in [addPrePostContext].  Calling
    [split] on an inherited member raises inside the [try]. *)
Definition addContext (sourceFiles : source_files) (frame : StackFrame) : StackFrame :=
  match filename frame with
  | Some name =>
      if negb (String.eqb name "") && Js.truthy (lookup_source sourceFiles name)
      then
        match lookup_source sourceFiles name with
        | VStr content => addContextLines (JsString.split_lines content) frame
        | _ => frame
        end
      else frame
  | None => frame
  end.

(** [addPrePostContext]. *)
Definition addPrePostContext (filesToRead : list string) (frames : list StackFrame)
  : result (list StackFrame) :=
  let sourceFiles := readSourceFiles filesToRead in
  Ok (addContext sourceFiles <$> frames).

(** [parseStack].  Every read and every frame is guarded inside
    [addPrePostContext], so its [catch] branch is never taken; it is kept
    as in the source. *)
Definition parseStack (stack : list CallSite) : result (list StackFrame) :=
  let '(frames, filesToRead) := parseFrames stack [] in
  match addPrePostContext filesToRead frames with
  | Ok enriched => Ok enriched
  | Throw _ => Ok frames
  end.

(** [arr = []] or [arr.slice(..)]: a new array at a reference that the
    store does not use yet. *)
Definition alloc (arr : list StackFrame) (h : heap) : nat * heap :=
  let r := fresh (dom h) in (r, <[r := arr]> h).

(** [prepareFramesForEvent].  [stack] is a reference into the store, or
    absent; the result is the returned reference and the store after the
    call.  A reference that the store does not hold reads as the empty
    array. *)
Definition prepareFramesForEvent (stack : option nat) (h : heap) : nat * heap :=
  match stack with
  | None => alloc [] h
  | Some stack =>
      match h !!! stack with
      | [] => alloc [] h
      | first :: _ =>
          let firstFrameFunction :=
            match function first with
            | Some f => f
            | None => ""
            end in
          let '(localStack, h) :=
            if JsString.includes firstFrameFunction "captureMessage"
               || JsString.includes firstFrameFunction "captureException"
            then alloc (JsArray.slice (h !!! stack) 1 (Z.of_nat (length (h !!! stack)))) h
            else (stack, h) in
          (localStack, <[localStack := rev (h !!! localStack)]> h)
      end
  end.

(** The name expression shared by [getExceptionFromError] and
    [parseError]: [error.name || error.constructor.name]. *)
Definition errorName (error : jsobject) : result jsval :=
  let name := Js.get error "name" in
  if Js.truthy name then Ok name
  else Js.name_of (Js.get error "constructor").

(** [getExceptionFromError].  The array of frames is a local of the
    function: it is the only array of the store handed to
    [prepareFramesForEvent]. *)
Definition getExceptionFromError (error : jsobject) : result SentryException :=
  name ← errorName error;
  stack ← extractStackFromError error;
  frames ← parseStack stack;
  let '(r, h) := alloc frames ∅ in
  let '(prepared, h) := prepareFramesForEvent (Some r) h in
  Ok {| frames := h !!! prepared; type := name; value := Js.get error "message" |}.

(** The loop of [parseError] that copies the kept properties. *)
Definition collectExtra (error : jsobject) (errorKeys : list string)
  : list (string * jsval) :=
  foldl (fun extraErrorInfo key => Js.set extraErrorInfo key (Js.get error key)) [] errorKeys.

(** The reserved names as the array literal of [parseError]. *)
Definition reserved_names : list string := ["name"; "message"; "stack"; "domain"].

(** [key in ['name', 'message', 'stack', 'domain']]. *)
Definition key_in_reserved (key : string) : bool :=
  Js.in_array (array_prototype_keys host ++ object_prototype_keys host)
    (length reserved_names) key.

(** [parseError].  The template literal converts the name, then the
    message or its placeholder; the computed key [[name]] converts the name
    once more, and only when some property is kept. *)
Definition parseError (error : jsobject) : result SentryEvent :=
  name ← errorName error;
  exception ← getExceptionFromError error;
  name_text ← to_string host name;
  message_text ← to_string host (Js.or (Js.get error "message") (VStr "<no message>"));
  let message := name_text ++ ": " ++ message_text in
  let errorKeys := List.filter (fun key => negb (key_in_reserved key)) (Js.keys error) in
  match errorKeys with
  | [] => Ok {| exception_values := [exception]; message := message; extra := None |}
  | _ =>
      key ← to_string host name;
      Ok {| exception_values := [exception];
            message := message;
            extra := Some [(key, collectExtra error errorKeys)] |}
  end.

End Parsers.

(** ** A concrete host and sample inputs *)

Module Sample.

(** Property names of [Array.prototype]. *)
Definition array_keys : list string :=
  ["concat"; "copyWithin"; "entries"; "every"; "fill"; "filter"; "find"; "findIndex";
   "forEach"; "includes"; "indexOf"; "join"; "keys"; "lastIndexOf"; "map"; "pop"; "push";
   "reduce"; "reduceRight"; "reverse"; "shift"; "slice"; "some"; "sort"; "splice";
   "unshift"; "values"].

(** Property names of [Object.prototype]. *)
Definition object_keys : list string :=
  ["constructor"; "__defineGetter__"; "__defineSetter__"; "hasOwnProperty";
   "__lookupGetter__"; "__lookupSetter__"; "isPrototypeOf"; "propertyIsEnumerable";
   "toString"; "valueOf"; "__proto__"; "toLocaleString"].

(** A file system given by the list of its readable files. *)
Definition read_from (files : list (string * string)) (filename : string) : result jsval :=
  match Js.assoc filename files with
  | Some content => Ok (VStr content)
  | None => Throw (Raised (VStr "ENOENT"))
  end.

(** A snipping function for lines short enough to be kept whole; like
    any function that reads the length of its argument it raises on
    [undefined]. *)
Definition keep_line (line : option string) (colno : Z) : result string :=
  match line with
  | Some s => Ok s
  | None => Throw (TypeError "Cannot read property 'length' of undefined")
  end.

(** A stack parser that reports the call sites [sites] for an error with
    a stack text, none for an error without one, and raises when it
    tries to split a [stack] that is not a string. *)
Definition parse_as (sites : list CallSite) (error : jsobject)
  : result (option (list CallSite)) :=
  match Js.get error "stack" with
  | VStr s => if String.eqb s "" then Ok (Some []) else Ok (Some sites)
  | v => if Js.truthy v
         then Throw (TypeError "err.stack.split is not a function")
         else Ok (Some [])
  end.

(** The conversion of the sample objects to text: an object on which no
    [toString] is listed has the one of [Object.prototype]; one that lists
    a [toString] (plain data, so not a function) has no conversion to a
    primitive, [Object.prototype.valueOf] giving the object back. *)
Definition object_text (o : jsobject) : result string :=
  match Js.get o "toString" with
  | VUndefined => Ok "[object Object]"
  | _ => Throw (TypeError "Cannot convert object to primitive value")
  end.

(** The host: entry directory [/app/], the call sites and the files
    given.  No sample converts a number beyond the safe integers, and
    [number_to_string] stands in with the digits. *)
Definition host (sites : list CallSite) (files : list (string * string)) : Host :=
  {| mainModule := "/app/";
     stacktrace_parse := parse_as sites;
     readFileAsync := read_from files;
     snipLine := keep_line;
     array_prototype_keys := array_keys;
     object_prototype_keys := object_keys;
     number_to_string := pretty;
     object_to_string := object_text |}.

(** A call site [at fn (file:line:col)] of script code. *)
Definition site (fn : nullable_string) (file : nullable_string) (line col : Z) : CallSite :=
  {| getColumnNumber := Some col; getFileName := file; getFunctionName := Ok fn;
     getTypeName := Ok NNull; getMethodName := Ok NNull; getLineNumber := Some line;
     isNative := false |}.

(** The call site of the stack line [at JSON.parse (<anonymous>)]: no
    file, no position, not native. *)
Definition anonymous_site : CallSite :=
  {| getColumnNumber := None; getFileName := NNull;
     getFunctionName := Ok (NStr "JSON.parse"); getTypeName := Ok (NStr "JSON");
     getMethodName := Ok (NStr "parse"); getLineNumber := None; isNative := false |}.

(** A call site without a function name whose type and method names are
    both [null]. *)
Definition nameless_site : CallSite :=
  {| getColumnNumber := Some 3; getFileName := NStr "/app/a.js"; getFunctionName := Ok NNull;
     getTypeName := Ok NNull; getMethodName := Ok NNull; getLineNumber := Some 1;
     isNative := false |}.

(** A call site whose type name cannot be resolved. *)
Definition strict_site : CallSite :=
  {| getColumnNumber := Some 3; getFileName := NStr "/app/a.js"; getFunctionName := Ok NNull;
     getTypeName := Throw (TypeError "Cannot read property 'constructor' of undefined");
     getMethodName := Ok (NStr "run"); getLineNumber := Some 1; isNative := false |}.

(** A method call site: no function name, type [Server], method [listen]. *)
Definition method_site : CallSite :=
  {| getColumnNumber := Some 3; getFileName := NStr "/app/a.js"; getFunctionName := Ok NNull;
     getTypeName := Ok (NStr "Server"); getMethodName := Ok (NStr "listen");
     getLineNumber := Some 1; isNative := false |}.

Definition newline : string := String "010" EmptyString.

(** The text [l1\nl2\n...] of the lines given. *)
Definition text_of (lines : list string) : string := String.concat newline lines.

(** A file of twenty lines [L1] to [L20]. *)
Definition twenty_lines : list string :=
  ["L1"; "L2"; "L3"; "L4"; "L5"; "L6"; "L7"; "L8"; "L9"; "L10";
   "L11"; "L12"; "L13"; "L14"; "L15"; "L16"; "L17"; "L18"; "L19"; "L20"].

(** An [Error] instance: [message] and [stack] are own properties that
    are not enumerable, [name] and [constructor] come from the
    prototype. *)
Definition error_with (own : list (string * jsval)) : jsobject :=
  JsObject own
    [("message", VStr "boom"); ("stack", VStr "Error: boom");
     ("name", VStr "Error"); ("constructor", VObject (JsObject [] [("name", VStr "Error")]))].


(** A normalized frame with the given function name and nothing else. *)
Definition frame_named (f : string) : StackFrame :=
  {| colno := None; filename := Some ""; function := Some f; lineno := None;
     in_app := Some false; module := None; pre_context := None; context_line := None;
     post_context := None |}.

(** A normalized frame of [/app/a.js] at the given position, as
    [parseStack] builds it before the context is added. *)
Definition frame_at (line col : Z) : StackFrame :=
  {| colno := Some col; filename := Some "/app/a.js"; function := Some "f";
     lineno := Some line; in_app := Some true; module := Some "a";
     pre_context := None; context_line := None; post_context := None |}.

(** An error without a stack whose message is the empty string. *)
Definition silent_error : jsobject :=
  JsObject [] [("name", VStr "RangeError"); ("message", VStr "")].

(** The event of [silent_error]. *)
Definition silent_event : SentryEvent :=
  {| exception_values := [{| frames := []; type := VStr "RangeError"; value := VStr "" |}];
     message := "RangeError: <no message>";
     extra := None |}.

(** A raw stack of two call sites of [/app/a.js], innermost first. *)
Definition two_sites : list CallSite :=
  [site (NStr "inner") (NStr "/app/a.js") 10 4; site (NStr "outer") (NStr "/app/a.js") 20 1].

(** The exception record of [error_with []] with the stack [two_sites]
    when no file can be read. *)
Definition two_frame_exception : SentryException :=
  {| frames :=
       [{| colno := Some 1; filename := Some "/app/a.js"; function := Some "outer";
           lineno := Some 20; in_app := Some true; module := Some "a";
           pre_context := None; context_line := None; post_context := None |};
        {| colno := Some 4; filename := Some "/app/a.js"; function := Some "inner";
           lineno := Some 10; in_app := Some true; module := Some "a";
           pre_context := None; context_line := None; post_context := None |}];
     type := VStr "Error";
     value := VStr "boom" |}.

End Sample.

(** ** Vocabulary of the statements *)

(** The test that [prepareFramesForEvent] applies to the first frame. *)
Definition is_capture_frame (frame : StackFrame) : bool :=
  let f := default "" (function frame) in
  JsString.includes f "captureMessage" || JsString.includes f "captureException".

(** The frames that stay, innermost first: all of them, or all but the
    first when that one is a capture frame. *)
Definition retained_frames (arr : list StackFrame) : list StackFrame :=
  match arr with
  | [] => []
  | first :: rest => if is_capture_frame first then rest else arr
  end.

(** Some context field of the frame is present. *)
Definition has_context (frame : StackFrame) : Prop :=
  is_Some (pre_context frame) \/ is_Some (context_line frame) \/ is_Some (post_context frame).

(** The conversion of a value to text returns. *)
Definition converts (host : Host) (v : jsval) : Prop :=
  exists text, to_string host v = Ok text.

(** The array behind the reference that a call returned. *)
Definition returned_array (p : nat * heap) : option (list StackFrame) := p.2 !! p.1.

(** The file name that [parseStack] stores for a call site. *)
Definition site_filename (site : CallSite) : string := Js.name_or (getFileName site) "".

(** The file that the callback of [parseStack] pushes to [filesToRead] for
    a call site, if it pushes one. *)
Definition requested_file (site : CallSite) : option string :=
  let file := site_filename site in
  if negb (String.eqb file "") && negb (isInternal site file) then Some file else None.

(** The file names that the test of [isInternal] lets pass: the empty one,
    those that start with a slash or a dot, and those with a drive
    separator at offset 1. *)
Definition path_shaped (file : string) : bool :=
  String.eqb file ""
  || JsString.startsWith file "/"
  || JsString.startsWith file "."
  || (JsString.indexOf file ":\" =? 1).

(** A function name with the mark of one of the capture entry points. *)
Definition names_capture (f : string) : bool :=
  JsString.includes f "captureMessage" || JsString.includes f "captureException".

(** The own enumerable properties that the filter of [parseError] keeps. *)
Definition kept_properties (host : Host) (error : jsobject) : list (string * jsval) :=
  List.filter (fun p => negb (key_in_reserved host p.1)) (own_enumerable error).

(** Reduce the sequencing of [result] in a hypothesis once its first step
    is a value or an exception. *)
Ltac result_step H := cbv beta iota delta [mbind result_bind] in H.

(** The same in the goal. *)
Ltac result_step_goal := cbv beta iota delta [mbind result_bind].

(** ** Module names *)

(** C7.  With base [/app/], [getModule] names [/app/lib/foo.js] as
    [lib:foo] (directory and file stem are joined by a colon),
    [/app/node_modules/pkg/sub/bar.js] as [pkg.sub:bar] and
    [/app/index.js] as [index]. *)
Theorem getModule_examples (host : Host) :
  getModule host "/app/lib/foo.js" (Some "/app/") = "lib:foo"
  /\ getModule host "/app/node_modules/pkg/sub/bar.js" (Some "/app/") = "pkg.sub:bar"
  /\ getModule host "/app/index.js" (Some "/app/") = "index".
Proof. repeat split; vm_compute; reflexivity. Qed.

(** C7, as the specification words it: the name of [/app/lib/foo.js] is
    not [lib.foo]. *)
Lemma getModule_lib_foo_is_not_dotted :
  getModule (Sample.host [] []) "/app/lib/foo.js" (Some "/app/") <> "lib.foo".
Proof. vm_compute. discriminate. Qed.

(** ** Function names *)

(** C4.  [getFunction] returns the reported function name when there is
    one; else, when the type and method getters return, the type name as
    text ([null] and [undefined] spelled out), a dot, and the method name or
    [<anonymous>] in its place; and exactly [<anonymous>] when a getter that
    it consults raises. *)
Theorem getFunction_cases (frame : CallSite) :
  (forall fn, getFunctionName frame = Ok fn -> Js.truthy_name fn = true ->
     getFunction frame = Js.name_to_string fn)
  /\ (forall fn ty me,
        getFunctionName frame = Ok fn -> Js.truthy_name fn = false ->
        getTypeName frame = Ok ty -> getMethodName frame = Ok me ->
        getFunction frame
        = Js.name_to_string ty ++ "."
          ++ (if Js.truthy_name me then Js.name_to_string me else "<anonymous>"))
  /\ (forall fn ty e,
        getFunctionName frame = Throw e
        \/ (getFunctionName frame = Ok fn /\ Js.truthy_name fn = false
            /\ (getTypeName frame = Throw e
                \/ (getTypeName frame = Ok ty /\ getMethodName frame = Throw e))) ->
        getFunction frame = "<anonymous>")
  /\ (forall t m,
        getFunctionName frame = Ok NNull ->
        getTypeName frame = Ok (NStr t) -> getMethodName frame = Ok (NStr m) -> m <> "" ->
        getFunction frame = t ++ "." ++ m).
Proof.
  unfold getFunction. repeat split.
  - intros fn -> Hfn. simpl. rewrite Hfn. reflexivity.
  - intros fn ty me -> Hfn -> ->. simpl. rewrite Hfn.
    destruct me as [| |s]; simpl; try reflexivity.
    destruct (String.eqb s ""); reflexivity.
  - intros fn ty e [-> | (-> & Hfn & [-> | [-> ->]])]; simpl; try reflexivity;
      rewrite Hfn; reflexivity.
  - intros t m -> -> -> Hm. simpl.
    destruct (String.eqb_spec m ""); [contradiction | reflexivity].
Qed.

Lemma getFunction_cases_witness :
  getFunction Sample.method_site = "Server.listen"
  /\ getFunction Sample.strict_site = "<anonymous>".
Proof.
  split.
  - apply (proj2 (proj2 (proj2 (getFunction_cases Sample.method_site))) "Server" "listen");
      [reflexivity | reflexivity | reflexivity | discriminate].
  - apply (proj1 (proj2 (proj2 (getFunction_cases Sample.strict_site)))
             NNull NNull (TypeError "Cannot read property 'constructor' of undefined")).
    right. split; [reflexivity|]. split; [reflexivity|]. left. reflexivity.
Defined.

(** C4, as the specification words it: with no function name and neither
    a type nor a method name the result is not the sentinel. *)
Lemma getFunction_nameless_is_not_sentinel :
  getFunction Sample.nameless_site = "null.<anonymous>"
  /\ getFunction Sample.nameless_site <> "<anonymous>".
Proof. split; [reflexivity | discriminate]. Qed.

(** ** Classification of frames *)

(** C2, evaluated on the code: a call site without a file name gets the
    empty string as its file name, and is classified in-app exactly when
    it is not native; the test against [undefined] never fails. *)
Theorem in_app_without_filename (host : Host) (frame : CallSite) (filesToRead : list string) :
  Js.truthy_name (getFileName frame) = false ->
  filename (parseFrame host frame filesToRead).1 = Some ""
  /\ in_app (parseFrame host frame filesToRead).1 = Some (negb (isNative frame)).
Proof.
  intros Hname.
  assert (Js.name_or (getFileName frame) "" = "") as Hfile.
  { destruct (getFileName frame) as [| |s]; try reflexivity.
    simpl in *. destruct (String.eqb s "") eqn:E; [reflexivity | discriminate]. }
  unfold parseFrame. cbn [fst filename in_app]. rewrite Hfile. split; [reflexivity|].
  unfold isInternal. cbn. destruct (isNative frame); reflexivity.
Qed.

Lemma in_app_without_filename_witness :
  in_app (parseFrame (Sample.host [] []) Sample.anonymous_site []).1 = Some true.
Proof.
  exact (proj2 (in_app_without_filename (Sample.host [] []) Sample.anonymous_site []
                  eq_refl)).
Defined.

(** ** Presentation order and the store *)

Lemma slice_tail {A} (x : A) (l : list A) :
  JsArray.slice (x :: l) 1 (Z.of_nat (length (x :: l))) = l.
Proof.
  unfold JsArray.slice, JsArray.clamp_index. cbn [length].
  destruct (Z.ltb_spec 1 0) as [?|_]; [lia|].
  destruct (Z.ltb_spec (Z.of_nat (S (length l))) 0) as [?|_]; [lia|].
  replace (Z.to_nat (Z.min 1 (Z.of_nat (S (length l))))) with 1%nat by lia.
  replace (Z.to_nat (Z.min (Z.of_nat (S (length l))) (Z.of_nat (S (length l)))
                     - Z.min 1 (Z.of_nat (S (length l))))) with (length l) by lia.
  simpl. rewrite drop_0. apply firstn_all.
Qed.

Lemma prepareFramesForEvent_empty (h : heap) (stack : option nat) :
  match stack with Some r => h !!! r = [] | None => True end ->
  prepareFramesForEvent stack h = alloc [] h.
Proof.
  destruct stack as [r|]; [|reflexivity].
  intros H. unfold prepareFramesForEvent. rewrite H. reflexivity.
Qed.

Lemma prepareFramesForEvent_keep (h : heap) (r : nat) first rest :
  h !! r = Some (first :: rest) -> is_capture_frame first = false ->
  prepareFramesForEvent (Some r) h = (r, <[r := rev (first :: rest)]> h).
Proof.
  intros Hr Hc. unfold prepareFramesForEvent.
  assert (h !!! r = first :: rest) as Ht by apply lookup_total_correct, Hr.
  rewrite Ht.
  change (JsString.includes _ "captureMessage" || JsString.includes _ "captureException")
    with (is_capture_frame first).
  rewrite Hc, Ht. reflexivity.
Qed.

Lemma prepareFramesForEvent_drop (h : heap) (r : nat) first rest :
  h !! r = Some (first :: rest) -> is_capture_frame first = true ->
  prepareFramesForEvent (Some r) h
  = (fresh (dom h), <[fresh (dom h) := rev rest]> h).
Proof.
  intros Hr Hc. unfold prepareFramesForEvent.
  assert (h !!! r = first :: rest) as Ht by apply lookup_total_correct, Hr.
  rewrite Ht.
  change (JsString.includes _ "captureMessage" || JsString.includes _ "captureException")
    with (is_capture_frame first).
  rewrite Hc. unfold alloc.
  rewrite slice_tail, lookup_total_insert_eq, insert_insert_eq. reflexivity.
Qed.

(** C9.  [prepareFramesForEvent] returns the empty array for an absent or
    empty stack; otherwise it returns the reverse of the innermost-first
    array, without its first entry exactly when that entry's function name
    contains [captureMessage] or [captureException]; so the innermost frame
    that stays is the last one. *)
Theorem prepareFramesForEvent_order (h : heap) :
  returned_array (prepareFramesForEvent None h) = Some []
  /\ (forall r, h !! r = Some [] ->
        returned_array (prepareFramesForEvent (Some r) h) = Some [])
  /\ (forall r first rest, h !! r = Some (first :: rest) ->
        returned_array (prepareFramesForEvent (Some r) h)
        = Some (rev (if is_capture_frame first then rest else first :: rest))
        /\ (is_capture_frame first = false ->
            last (rev (first :: rest)) = Some first)
        /\ (is_capture_frame first = true ->
            last (rev rest) = head rest)).
Proof.
  split; [|split].
  - unfold returned_array, prepareFramesForEvent, alloc. simpl. apply lookup_insert_eq.
  - intros r Hr. rewrite prepareFramesForEvent_empty
      by (simpl; apply lookup_total_correct, Hr).
    unfold returned_array, alloc. simpl. apply lookup_insert_eq.
  - intros r first rest Hr. split; [|split].
    + destruct (is_capture_frame first) eqn:Hc.
      * rewrite (prepareFramesForEvent_drop _ _ _ _ Hr Hc).
        unfold returned_array. simpl. apply lookup_insert_eq.
      * rewrite (prepareFramesForEvent_keep _ _ _ _ Hr Hc).
        unfold returned_array. simpl. apply lookup_insert_eq.
    + intros _. simpl. apply last_snoc.
    + intros _. destruct rest as [|x rest]; [reflexivity|]. simpl. apply last_snoc.
Qed.

Lemma prepareFramesForEvent_order_witness :
  returned_array
    (prepareFramesForEvent (Some 0%nat)
       {[ 0%nat := [Sample.frame_named "Hub.captureException"; Sample.frame_named "inner";
                    Sample.frame_named "outer"] ]})
  = Some [Sample.frame_named "outer"; Sample.frame_named "inner"].
Proof.
  exact (proj1 (proj2 (proj2 (prepareFramesForEvent_order
           {[ 0%nat := [Sample.frame_named "Hub.captureException"; Sample.frame_named "inner";
                        Sample.frame_named "outer"] ]})) 0%nat _ _ (lookup_singleton_eq _ _))).
Defined.

(** The frames of the exception record are those of [parseStack] in
    presentation order. *)
Lemma getExceptionFromError_frames (host : Host) (error : jsobject) exception :
  getExceptionFromError host error = Ok exception ->
  exists stack parsed,
    extractStackFromError host error = Ok stack
    /\ parseStack host stack = Ok parsed
    /\ frames exception = rev (retained_frames parsed).
Proof.
  unfold getExceptionFromError. intros H.
  destruct (errorName error) as [name|e]; result_step H; [|discriminate].
  destruct (extractStackFromError host error) as [stack|e] eqn:He; result_step H;
    [|discriminate].
  destruct (parseStack host stack) as [parsed|e] eqn:Hp; result_step H; [|discriminate].
  unfold alloc in H.
  exists stack, parsed. split; [reflexivity|]. split; [exact Hp|].
  set (r := fresh (dom (∅ : heap))) in *.
  assert ((<[r := parsed]> (∅ : heap)) !! r = Some parsed) as Hr by apply lookup_insert_eq.
  destruct parsed as [|first rest].
  - rewrite prepareFramesForEvent_empty in H
      by (simpl; apply lookup_total_correct, Hr).
    unfold alloc in H. cbv beta iota zeta in H. injection H as <-.
    simpl. apply lookup_total_insert_eq.
  - destruct (is_capture_frame first) eqn:Hc.
    + rewrite (prepareFramesForEvent_drop _ _ _ _ Hr Hc) in H.
      cbv beta iota zeta in H. injection H as <-.
      cbn [frames retained_frames]. rewrite Hc. apply lookup_total_insert_eq.
    + rewrite (prepareFramesForEvent_keep _ _ _ _ Hr Hc) in H.
      cbv beta iota zeta in H. injection H as <-.
      cbn [frames retained_frames]. rewrite Hc. apply lookup_total_insert_eq.
Qed.

(** C10.  For a non-empty array whose first frame is not a capture frame,
    [prepareFramesForEvent] returns the reference it was given and the
    array behind it is reversed in the store, all other arrays being as
    before.  When the first frame is a capture frame the result is a new
    reference and the caller's array is as before.  So the caller's array
    is left as it was only by a drop, or when it reads the same in both
    directions. *)
Theorem prepareFramesForEvent_aliasing (h : heap) (r : nat) first rest :
  h !! r = Some (first :: rest) ->
  (is_capture_frame first = false ->
     prepareFramesForEvent (Some r) h = (r, <[r := rev (first :: rest)]> h))
  /\ (is_capture_frame first = true ->
        (prepareFramesForEvent (Some r) h).1 <> r
        /\ h !! (prepareFramesForEvent (Some r) h).1 = None
        /\ (prepareFramesForEvent (Some r) h).2
           = <[(prepareFramesForEvent (Some r) h).1 := rev rest]> h
        /\ (prepareFramesForEvent (Some r) h).2 !! r = Some (first :: rest))
  /\ ((prepareFramesForEvent (Some r) h).2 !! r = Some (first :: rest) ->
        is_capture_frame first = true \/ rev (first :: rest) = first :: rest).
Proof.
  intros Hr. split; [|split].
  - intros Hc. apply (prepareFramesForEvent_keep _ _ _ _ Hr Hc).
  - intros Hc. rewrite (prepareFramesForEvent_drop _ _ _ _ Hr Hc). simpl.
    assert (h !! fresh (dom h) = None) as Hfresh by apply not_elem_of_dom, is_fresh.
    assert (fresh (dom h) <> r) as Hne by (intros E; rewrite E in Hfresh; congruence).
    repeat split; try assumption.
    rewrite lookup_insert_ne by assumption. exact Hr.
  - destruct (is_capture_frame first) eqn:Hc; [left; reflexivity|].
    rewrite (prepareFramesForEvent_keep _ _ _ _ Hr Hc). simpl.
    rewrite lookup_insert_eq. intros E. right. congruence.
Qed.

Lemma prepareFramesForEvent_aliasing_witness :
  prepareFramesForEvent (Some 0%nat)
    {[ 0%nat := [Sample.frame_named "inner"; Sample.frame_named "outer"] ]}
  = (0%nat,
     <[ 0%nat := [Sample.frame_named "outer"; Sample.frame_named "inner"] ]>
       {[ 0%nat := [Sample.frame_named "inner"; Sample.frame_named "outer"] ]}).
Proof.
  exact (proj1 (prepareFramesForEvent_aliasing
                  {[ 0%nat := [Sample.frame_named "inner"; Sample.frame_named "outer"] ]}
                  0%nat _ _ (lookup_singleton_eq _ _)) eq_refl).
Defined.

(** C10, as the claim words it: a single frame that is not a capture frame
    is not dropped, the call returns the caller's array, and the array
    reads as before the call. *)
Lemma caller_array_same_without_drop :
  is_capture_frame (Sample.frame_named "inner") = false
  /\ (prepareFramesForEvent (Some 0%nat) {[ 0%nat := [Sample.frame_named "inner"] ]}).1
     = 0%nat
  /\ (prepareFramesForEvent (Some 0%nat) {[ 0%nat := [Sample.frame_named "inner"] ]}).2
       !! 0%nat
     = Some [Sample.frame_named "inner"].
Proof. repeat split; vm_compute; reflexivity. Qed.

(** ** The event record *)

(** [key in [...]] looks at the indices of the array, not at its elements:
    none of the four reserved names is found. *)
Lemma key_in_reserved_names :
  Forall (fun key => key_in_reserved (Sample.host [] []) key = false) reserved_names.
Proof. repeat constructor. Qed.

(** What [key in [...]] does find: the indices and [length] (and the
    inherited names). *)
Lemma key_in_reserved_indices (host : Host) :
  Forall (fun key => key_in_reserved host key = true) ["0"; "1"; "2"; "3"; "length"].
Proof. repeat constructor. Qed.

(** C1, evaluated on the code: an error with the own enumerable properties
    [domain], [customCode] and [length] gets an [extra] entry under its type
    name that holds [customCode: 42], that also holds the reserved [domain],
    and that lacks [length]. *)
Theorem parseError_extra_keeps_domain :
  exists event,
    parseError (Sample.host [] [])
      (Sample.error_with
         [("domain", VObject (JsObject [] [])); ("customCode", VNum 42); ("length", VNum 1)])
    = Ok event
    /\ extra event
       = Some [("Error", [("domain", VObject (JsObject [] [])); ("customCode", VNum 42)])].
Proof. eexists. split; vm_compute; reflexivity. Qed.

Lemma parseFrames_fst_length (host : Host) (stack : list CallSite) (acc : list string) :
  length (parseFrames host stack acc).1 = length stack.
Proof.
  revert acc. induction stack as [|site stack IH]; intros acc; [reflexivity|].
  cbn [parseFrames]. destruct (parseFrame host site acc) as [parsed acc1].
  specialize (IH acc1). destruct (parseFrames host stack acc1) as [rest acc2].
  simpl in *. congruence.
Qed.

(** [parseStack] always returns, with one frame for each call site. *)
Lemma parseStack_total (host : Host) (stack : list CallSite) :
  exists parsed, parseStack host stack = Ok parsed /\ length parsed = length stack.
Proof.
  unfold parseStack, addPrePostContext.
  pose proof (parseFrames_fst_length host stack []) as Hlen.
  destruct (parseFrames host stack []) as [parsed files].
  eexists. split; [reflexivity|]. rewrite length_fmap. exact Hlen.
Qed.


(** An exception of the stack parser passes through [parseError]. *)
Lemma parseError_propagates_parser_failure (host : Host) (error : jsobject) name e :
  errorName error = Ok name ->
  stacktrace_parse host error = Throw e ->
  parseError host error = Throw e.
Proof.
  intros Hn Hp. unfold parseError, getExceptionFromError, extractStackFromError.
  rewrite Hn, Hp. reflexivity.
Qed.

(** [getExceptionFromError] returns exactly when the name resolves and the
    stack parser returns. *)
Lemma getExceptionFromError_returns_iff (host : Host) (error : jsobject) :
  (exists exception, getExceptionFromError host error = Ok exception)
  <-> (exists name, errorName error = Ok name)
      /\ (exists stack, stacktrace_parse host error = Ok stack).
Proof.
  unfold getExceptionFromError, extractStackFromError. split.
  - intros [exception H].
    destruct (errorName error) as [name|e]; result_step H; [|discriminate].
    split; [eexists; reflexivity|].
    destruct (stacktrace_parse host error) as [stack|e]; result_step H; [|discriminate].
    eexists; reflexivity.
  - intros [[name ->] [stack ->]]. cbv beta iota delta [mbind result_bind].
    destruct (parseStack_total host (match stack with Some s => s | None => [] end))
      as (parsed & Hp & _).
    destruct stack as [stack|]; cbv beta iota delta [mbind result_bind];
      rewrite Hp; cbv beta iota delta [mbind result_bind];
      destruct (alloc parsed ∅) as [r h];
      destruct (prepareFramesForEvent (Some r) h) as [prepared h'];
      eexists; reflexivity.
Qed.

(** The steps of a [parseError] that returns, and the event they make. *)
Lemma parseError_inv (host : Host) (error : jsobject) (event : SentryEvent) :
  parseError host error = Ok event ->
  exists name exception name_text message_text,
    errorName error = Ok name
    /\ getExceptionFromError host error = Ok exception
    /\ to_string host name = Ok name_text
    /\ to_string host (Js.or (Js.get error "message") (VStr "<no message>"))
       = Ok message_text
    /\ event
       = {| exception_values := [exception];
            message := name_text ++ ": " ++ message_text;
            extra :=
              match List.filter (fun key => negb (key_in_reserved host key))
                      (Js.keys error) with
              | [] => None
              | keys => Some [(name_text, collectExtra error keys)]
              end |}.
Proof.
  unfold parseError. intros H.
  destruct (errorName error) as [name|e] eqn:Hn; result_step H; [|discriminate].
  destruct (getExceptionFromError host error) as [exception|e] eqn:Hex; result_step H;
    [|discriminate].
  destruct (to_string host name) as [name_text|e] eqn:Hname; result_step H;
    [|discriminate].
  destruct (to_string host (Js.or (Js.get error "message") (VStr "<no message>")))
    as [message_text|e] eqn:Hmt; result_step H; [|discriminate].
  exists name, exception, name_text, message_text.
  do 4 (split; [first [reflexivity | assumption]|]).
  destruct (List.filter _ (Js.keys error)) as [|k ks].
  - injection H as <-. reflexivity.
  - result_step H. injection H as <-. reflexivity.
Qed.

(** A primitive always has a text. *)
Lemma converts_primitive (host : Host) (v : jsval) :
  (forall o, v <> VObject o) -> converts host v.
Proof.
  intros Hv. unfold converts.
  destruct v as [| |[|]|n|s|o]; try (eexists; reflexivity).
  exfalso. exact (Hv o eq_refl).
Qed.

(** [parseError] returns when its four raising steps return. *)
Lemma parseError_returns (host : Host) (error : jsobject) (name : jsval) :
  errorName error = Ok name ->
  (exists stack, stacktrace_parse host error = Ok stack) ->
  converts host name ->
  converts host (Js.or (Js.get error "message") (VStr "<no message>")) ->
  exists event, parseError host error = Ok event.
Proof.
  intros Hn Hstack [name_text Hnt] [message_text Hmt].
  destruct (proj2 (getExceptionFromError_returns_iff host error)
              (conj (ex_intro _ name Hn) Hstack)) as [exception Hex].
  unfold parseError. rewrite Hn. result_step_goal. rewrite Hex. result_step_goal.
  rewrite Hnt. result_step_goal. rewrite Hmt. result_step_goal.
  destruct (List.filter _ (Js.keys error)); [eexists; reflexivity|].
  result_step_goal. eexists; reflexivity.
Qed.

(** For an error whose name and message are primitives, as the type
    [Error] has them, the conversions return: [parseError] returns as soon
    as the name resolves and the stack parser returns. *)
Lemma parseError_returns_on_primitives (host : Host) (error : jsobject) (name : jsval) :
  errorName error = Ok name ->
  (forall o, name <> VObject o) ->
  (forall o, Js.get error "message" <> VObject o) ->
  (exists stack, stacktrace_parse host error = Ok stack) ->
  exists event, parseError host error = Ok event.
Proof.
  intros Hn Hname Hmessage Hstack.
  apply (parseError_returns host error name Hn Hstack);
    apply converts_primitive; [exact Hname|].
  unfold Js.or. destruct (Js.truthy (Js.get error "message"));
    [exact Hmessage | discriminate].
Qed.



(** An error whose name is an object without a conversion to a primitive
    makes [parseError] raise at the template literal. *)
Lemma parseError_raises_on_unconvertible_name :
  parseError (Sample.host [] [])
    (JsObject [] [("name", VObject (JsObject [("toString", VNum 5)] []));
                  ("message", VStr "boom")])
  = Throw (TypeError "Cannot convert object to primitive value").
Proof. reflexivity. Qed.

(** With a parser that splits the stack text, a [stack] that is a number
    makes [parseError] raise as well. *)
Lemma parseError_raises_on_numeric_stack :
  parseError (Sample.host [] [])
    (JsObject [] [("name", VStr "Error"); ("message", VStr "boom"); ("stack", VNum 42)])
  = Throw (TypeError "err.stack.split is not a function").
Proof. reflexivity. Qed.

(** ** Source context *)

Lemma result_map_length {A B} (f : A -> result B) (l : list A) (out : list B) :
  result_map f l = Ok out -> length out = length l.
Proof.
  revert out. induction l as [|x l IH]; intros out H; simpl in H.
  - injection H as <-. reflexivity.
  - destruct (f x) as [y|e]; result_step H; [|discriminate].
    destruct (result_map f l) as [ys|e]; result_step H; [|discriminate].
    injection H as <-. simpl. f_equal. apply IH. reflexivity.
Qed.

(** [lines.slice(0, -1)] is every line but the last. *)
Lemma slice_to_minus_one {A} (lines : list A) :
  JsArray.slice lines 0 (-1) = take (length lines - 1) lines.
Proof.
  unfold JsArray.slice, JsArray.clamp_index.
  destruct (Z.ltb_spec 0 0) as [?|_]; [lia|].
  destruct (Z.ltb_spec (-1) 0) as [_|?]; [|lia].
  replace (Z.to_nat (Z.min 0 (Z.of_nat (length lines)))) with 0%nat by lia.
  replace (Z.to_nat (Z.max (Z.of_nat (length lines) + -1) 0
                     - Z.min 0 (Z.of_nat (length lines))))
    with (length lines - 1)%nat by lia.
  rewrite drop_0. reflexivity.
Qed.

(** A slice between two offsets inside the array. *)
Lemma slice_inside {A} (lines : list A) (from to : Z) :
  0 <= from <= to -> to <= Z.of_nat (length lines) ->
  JsArray.slice lines from to = take (Z.to_nat (to - from)) (drop (Z.to_nat from) lines).
Proof.
  intros Hf Ht. unfold JsArray.slice, JsArray.clamp_index.
  destruct (Z.ltb_spec from 0) as [?|_]; [lia|].
  destruct (Z.ltb_spec to 0) as [?|_]; [lia|].
  rewrite !Z.min_l by lia. reflexivity.
Qed.

(** C5, evaluated on the code: for a frame whose line number is absent
    or 0, the lines handed to [pre_context] are [lines.slice(0, -1)], all
    lines of the file but the last; the context line is what [snipLine]
    makes of [undefined], and when that raises the line and the post context
    stay as they were. *)
Theorem pre_context_without_line (host : Host) (lines : list string) (frame : StackFrame)
    (pre : list string) :
  Js.num_or_zero (lineno frame) = 0 ->
  result_map (fun line => snipLine host (Some line) 0) (take (length lines - 1) lines)
  = Ok pre ->
  pre_context (addContextLines host lines frame) = Some pre
  /\ (forall e, snipLine host None (Js.num_or_zero (colno frame)) = Throw e ->
        context_line (addContextLines host lines frame) = context_line frame
        /\ post_context (addContextLines host lines frame) = post_context frame).
Proof.
  intros Hn Hpre. unfold addContextLines. rewrite Hn.
  change (Z.max 0 (0 - (LINES_OF_CONTEXT + 1))) with 0.
  change (0 - 1) with (-1).
  rewrite slice_to_minus_one, Hpre.
  change (JsArray.at_index lines (-1)) with (@None string).
  cbn [colno set_pre_context].
  destruct (snipLine host None (Js.num_or_zero (colno frame))) as [line|e0].
  - split; [|intros e He; discriminate].
    destruct (result_map _ (JsArray.slice lines 0 (0 + LINES_OF_CONTEXT))); reflexivity.
  - split; [reflexivity|]. intros e _. split; reflexivity.
Qed.

Lemma pre_context_without_line_witness :
  pre_context
    (addContextLines (Sample.host [] []) ["a"; "b"; "c"] (Sample.frame_at 0 1))
  = Some ["a"; "b"].
Proof.
  exact (proj1 (pre_context_without_line (Sample.host [] []) ["a"; "b"; "c"]
                  (Sample.frame_at 0 1) ["a"; "b"] eq_refl eq_refl)).
Defined.

(** The same through [parseStack]: a readable file of three lines and a
    call site at line 0. *)
Example parseStack_line_zero :
  parseStack (Sample.host [] [("/app/a.js", Sample.text_of ["a"; "b"; "c"])])
    [Sample.site (NStr "f") (NStr "/app/a.js") 0 1]
  = Ok [{| colno := Some 1; filename := Some "/app/a.js"; function := Some "f";
           lineno := Some 0; in_app := Some true; module := Some "a";
           pre_context := Some ["a"; "b"]; context_line := None; post_context := None |}].
Proof. vm_compute. reflexivity. Qed.

Lemma readSourceFiles_foldl (host : Host) (filenames : list string) :
  readSourceFiles host filenames = foldl (readSourceFile host) ∅ filenames.
Proof. destruct filenames; reflexivity. Qed.

(** An entry of the object of contents is what the read of a requested
    file returned. *)
Lemma foldl_read_lookup (host : Host) (filenames : list string) (sourceFiles : source_files)
    (name content : string) :
  foldl (readSourceFile host) sourceFiles filenames !! name = Some content ->
  sourceFiles !! name = Some content
  \/ (name ∈ filenames /\ readFileAsync host name = Ok (VStr content)).
Proof.
  revert sourceFiles. induction filenames as [|x filenames IH]; intros sourceFiles H.
  - left. exact H.
  - simpl in H. destruct (IH _ H) as [Hx | [Hin Hread]].
    + unfold readSourceFile, store_source in Hx.
      destruct (readFileAsync host x) as [[| | | |s|]|e] eqn:Hrd; try (left; exact Hx).
      destruct (String.eqb x "__proto__"); [left; exact Hx|].
      destruct (decide (x = name)) as [->|Hne].
      * rewrite lookup_insert_eq in Hx. injection Hx as ->.
        right. split; [apply list_elem_of_here | exact Hrd].
      * rewrite lookup_insert_ne in Hx by exact Hne. left. exact Hx.
    + right. split; [apply list_elem_of_further, Hin | exact Hread].
Qed.

(** A requested file whose read returns a text has that text as its
    entry. *)
Lemma foldl_read_found (host : Host) (filenames : list string) (sourceFiles : source_files)
    (name content : string) :
  readFileAsync host name = Ok (VStr content) -> name <> "__proto__" ->
  sourceFiles !! name = Some content \/ name ∈ filenames ->
  foldl (readSourceFile host) sourceFiles filenames !! name = Some content.
Proof.
  intros Hread Hproto. revert sourceFiles.
  induction filenames as [|x filenames IH]; intros sourceFiles H.
  - destruct H as [H|H]; [exact H | inversion H].
  - simpl. apply IH.
    destruct (decide (x = name)) as [->|Hne].
    + left. unfold readSourceFile, store_source. rewrite Hread.
      destruct (String.eqb_spec name "__proto__"); [contradiction|].
      apply lookup_insert_eq.
    + destruct H as [H|H].
      * left. unfold readSourceFile, store_source.
        destruct (readFileAsync host x) as [[| | | |s|]|e]; try exact H.
        destruct (String.eqb x "__proto__"); [exact H|].
        rewrite lookup_insert_ne by exact Hne. exact H.
      * right. inversion H; subst; [contradiction | assumption].
Qed.

(** C8.  For a requested file that was read as a text of 20 lines (with or
    without further lines after them) and a frame of that file at line 10,
    [addPrePostContext] sets [pre_context] to the 7 lines 3 to 9 and
    [post_context] to the 7 lines 11 to 17, each snipped at column 0, and
    [context_line] to line 10 snipped at the column of the frame; the other
    fields stay as they are. *)
Theorem context_of_line_10 (host : Host) (filesToRead : list string)
    (frames : list StackFrame) (i : nat) (frame : StackFrame) (name content : string)
    (lines pre post : list string) (line : string) :
  frames !! i = Some frame ->
  filename frame = Some name -> name <> "" -> name <> "__proto__" ->
  name ∈ filesToRead ->
  readFileAsync host name = Ok (VStr content) ->
  JsString.split_lines content = lines -> (20 <= length lines)%nat ->
  lineno frame = Some 10 ->
  result_map (fun l => snipLine host (Some l) 0) (take 7 (drop 2 lines)) = Ok pre ->
  snipLine host (lines !! 9%nat) (Js.num_or_zero (colno frame)) = Ok line ->
  result_map (fun l => snipLine host (Some l) 0) (take 7 (drop 10 lines)) = Ok post ->
  exists enriched,
    addPrePostContext host filesToRead frames = Ok enriched
    /\ enriched !! i
       = Some (set_post_context (set_context_line (set_pre_context frame pre) line) post)
    /\ length pre = 7%nat /\ length post = 7%nat.
Proof.
  intros Hi Hname Hne Hproto Hin Hread Hsplit Hlen Hline Hpre Hcur Hpost.
  unfold addPrePostContext. eexists. split; [reflexivity|]. split.
  - rewrite list_lookup_fmap, Hi. simpl. f_equal.
    assert (readSourceFiles host filesToRead !! name = Some content) as Hsrc.
    { rewrite readSourceFiles_foldl. apply foldl_read_found; auto. }
    assert (content <> "") as Hcontent.
    { intros ->. subst lines. simpl in Hlen. lia. }
    unfold addContext. rewrite Hname. unfold lookup_source. rewrite Hsrc.
    destruct (String.eqb_spec name ""); [contradiction|].
    simpl. destruct (String.eqb_spec content ""); [contradiction|].
    simpl. rewrite Hsplit. unfold addContextLines. rewrite Hline.
    change (Js.num_or_zero (Some 10)) with 10.
    change (Z.max 0 (10 - (LINES_OF_CONTEXT + 1))) with 2.
    change (10 - 1) with 9. change (10 + LINES_OF_CONTEXT) with 17.
    rewrite (slice_inside lines 2 9), (slice_inside lines 10 17) by lia.
    change (Z.to_nat (9 - 2)) with 7%nat. change (Z.to_nat 2) with 2%nat.
    change (Z.to_nat (17 - 10)) with 7%nat. change (Z.to_nat 10) with 10%nat.
    rewrite Hpre. cbn [colno set_pre_context].
    change (JsArray.at_index lines 9) with (lines !! 9%nat).
    rewrite Hcur, Hpost. reflexivity.
  - apply result_map_length in Hpre, Hpost.
    rewrite length_take, length_drop in Hpre, Hpost. lia.
Qed.

Lemma context_of_line_10_witness :
  exists enriched,
    addPrePostContext (Sample.host [] [("/app/a.js", Sample.text_of Sample.twenty_lines)])
      ["/app/a.js"] [Sample.frame_at 10 4]
    = Ok enriched
    /\ enriched !! 0%nat
       = Some {| colno := Some 4; filename := Some "/app/a.js"; function := Some "f";
                 lineno := Some 10; in_app := Some true; module := Some "a";
                 pre_context := Some ["L3"; "L4"; "L5"; "L6"; "L7"; "L8"; "L9"];
                 context_line := Some "L10";
                 post_context := Some ["L11"; "L12"; "L13"; "L14"; "L15"; "L16"; "L17"] |}
    /\ length ["L3"; "L4"; "L5"; "L6"; "L7"; "L8"; "L9"] = 7%nat
    /\ length ["L11"; "L12"; "L13"; "L14"; "L15"; "L16"; "L17"] = 7%nat.
Proof.
  refine (context_of_line_10
            (Sample.host [] [("/app/a.js", Sample.text_of Sample.twenty_lines)])
            ["/app/a.js"] [Sample.frame_at 10 4] 0%nat (Sample.frame_at 10 4)
            "/app/a.js" (Sample.text_of Sample.twenty_lines) Sample.twenty_lines
            ["L3"; "L4"; "L5"; "L6"; "L7"; "L8"; "L9"]
            ["L11"; "L12"; "L13"; "L14"; "L15"; "L16"; "L17"] "L10"
            eq_refl eq_refl _ _ _ eq_refl eq_refl _ eq_refl eq_refl eq_refl eq_refl).
  - discriminate.
  - discriminate.
  - apply list_elem_of_here.
  - simpl. lia.
Defined.

Lemma addContextLines_keeps_context (host : Host) (lines : list string) (frame : StackFrame) :
  filename (addContextLines host lines frame) = filename frame.
Proof.
  unfold addContextLines.
  repeat match goal with
         | |- context [match ?r with Ok _ => _ | Throw _ => _ end] => destruct r
         end; reflexivity.
Qed.

(** A frame that gains a context field has a non-empty file name with a
    non-empty own entry in the object of contents. *)
Lemma addContext_gains (host : Host) (sourceFiles : source_files) (frame : StackFrame) :
  ~ has_context frame ->
  has_context (addContext host sourceFiles frame) ->
  exists name content,
    filename frame = Some name /\ name <> ""
    /\ sourceFiles !! name = Some content /\ content <> "".
Proof.
  intros Hno Hgain. unfold addContext in Hgain.
  destruct (filename frame) as [name|]; [|contradiction].
  destruct (String.eqb_spec name "") as [He|Hne]; [contradiction|].
  unfold lookup_source in Hgain. simpl in Hgain.
  destruct (sourceFiles !! name) as [content|] eqn:Hsrc.
  - simpl in Hgain. destruct (String.eqb_spec content "") as [He|Hc]; [contradiction|].
    exists name, content. auto.
  - destruct (existsb (String.eqb name) (object_prototype_keys host)); contradiction.
Qed.

Lemma addContext_filename (host : Host) (sourceFiles : source_files) (frame : StackFrame) :
  filename (addContext host sourceFiles frame) = filename frame.
Proof.
  unfold addContext. destruct (filename frame) as [name|] eqn:Hf; [|exact Hf].
  destruct (negb (String.eqb name "") && Js.truthy (lookup_source host sourceFiles name));
    [|exact Hf].
  destruct (lookup_source host sourceFiles name); try exact Hf.
  rewrite addContextLines_keeps_context. exact Hf.
Qed.

(** The frames that [parseStack] builds carry no context, and the files it
    asks for are the non-empty file names of call sites that are not
    internal. *)
Lemma parseFrames_spec (host : Host) (stack : list CallSite) (acc : list string) :
  (forall frame, frame ∈ (parseFrames host stack acc).1 -> ~ has_context frame)
  /\ (forall name, name ∈ (parseFrames host stack acc).2 ->
        name ∈ acc
        \/ exists site, site ∈ stack /\ Js.name_or (getFileName site) "" = name
                        /\ name <> "" /\ isInternal site name = false).
Proof.
  revert acc. induction stack as [|site stack IH]; intros acc.
  - split; [intros frame H; inversion H | intros name H; left; exact H].
  - cbn [parseFrames].
    destruct (parseFrame host site acc) as [parsed acc1] eqn:Hparsed.
    specialize (IH acc1). destruct (parseFrames host stack acc1) as [rest acc2].
    destruct IH as [IHframes IHfiles]. simpl in *. unfold parseFrame in Hparsed.
    injection Hparsed as <- <-. split.
    + intros frame H. apply elem_of_cons in H as [-> | H]; [|apply IHframes, H].
      intros [H | [H | H]]; simpl in H; destruct H as [? H]; discriminate.
    + intros name H. destruct (IHfiles name H) as [H1 | (s & Hs & Hn & Hne & Hint)].
      * set (file := Js.name_or (getFileName site) "") in *.
        destruct (String.eqb_spec file "") as [He|He]; simpl in H1; [left; exact H1|].
        destruct (isInternal site file) eqn:Hint; simpl in H1; [left; exact H1|].
        apply elem_of_app in H1 as [H1 | H1]; [left; exact H1|].
        apply list_elem_of_singleton in H1 as ->.
        right. exists site. split; [apply list_elem_of_here|]. auto.
      * right. exists s. split; [apply list_elem_of_further, Hs|]. auto.
Qed.

(** C6.  A frame in the result of [parseStack] has a context field only if
    its file name is not empty, is the file name of a call site of the
    stack that is not internal (not native, and with a file name that looks
    like a path), and the read of that file returned a non-empty text.
    Every other frame has the three fields absent.  The frame need not be
    in-app. *)
Theorem context_only_for_read_files (host : Host) (stack : list CallSite)
    (parsed : list StackFrame) (frame : StackFrame) :
  parseStack host stack = Ok parsed ->
  frame ∈ parsed ->
  has_context frame ->
  exists name content site,
    filename frame = Some name /\ name <> ""
    /\ site ∈ stack /\ Js.name_or (getFileName site) "" = name
    /\ isInternal site name = false
    /\ readFileAsync host name = Ok (VStr content) /\ content <> "".
Proof.
  unfold parseStack, addPrePostContext. intros Hparse Hin Hctx.
  destruct (parseFrames_spec host stack []) as [Hframes Hfiles].
  destruct (parseFrames host stack []) as [frames filesToRead]. simpl in *.
  injection Hparse as <-.
  apply list_elem_of_fmap in Hin as (frame0 & -> & Hin0).
  destruct (addContext_gains host _ frame0 (Hframes _ Hin0) Hctx)
    as (name & content & Hname & Hne & Hsrc & Hcontent).
  rewrite readSourceFiles_foldl in Hsrc.
  apply foldl_read_lookup in Hsrc as [Hsrc | [Hreq Hread]];
    [rewrite lookup_empty in Hsrc; discriminate|].
  destruct (Hfiles name Hreq) as [Habs | (site & Hs & Hn & _ & Hint)];
    [inversion Habs|].
  exists name, content, site. rewrite addContext_filename. auto 10.
Qed.

Lemma context_only_for_read_files_witness :
  exists name content site,
    filename
      {| colno := Some 1; filename := Some "/app/a.js"; function := Some "f";
         lineno := Some 2; in_app := Some true; module := Some "a";
         pre_context := Some ["a"]; context_line := Some "b"; post_context := Some ["c"] |}
    = Some name /\ name <> ""
    /\ site ∈ [Sample.site (NStr "f") (NStr "/app/a.js") 2 1]
    /\ Js.name_or (getFileName site) "" = name
    /\ isInternal site name = false
    /\ readFileAsync (Sample.host [] [("/app/a.js", Sample.text_of ["a"; "b"; "c"])]) name
       = Ok (VStr content)
    /\ content <> "".
Proof.
  refine (context_only_for_read_files
            (Sample.host [] [("/app/a.js", Sample.text_of ["a"; "b"; "c"])])
            [Sample.site (NStr "f") (NStr "/app/a.js") 2 1] _ _ eq_refl _ _).
  - apply list_elem_of_here.
  - left. eexists. reflexivity.
Defined.

(** C6, as the specification words it: a frame under [node_modules/] is
    not in-app, and gets its context all the same when the file is read. *)
Lemma context_for_frame_not_in_app :
  parseStack
    (Sample.host [] [("/app/node_modules/p/i.js", Sample.text_of ["a"; "b"; "c"])])
    [Sample.site (NStr "f") (NStr "/app/node_modules/p/i.js") 2 1]
  = Ok [{| colno := Some 1; filename := Some "/app/node_modules/p/i.js";
           function := Some "f"; lineno := Some 2; in_app := Some false;
           module := Some "p:i"; pre_context := Some ["a"]; context_line := Some "b";
           post_context := Some ["c"] |}].
Proof. vm_compute. reflexivity. Qed.

(** ** The collected properties *)

Lemma assoc_set {V} (ps : list (string * V)) (k k' : string) (v : V) :
  Js.assoc k (Js.set ps k' v) = if String.eqb k k' then Some v else Js.assoc k ps.
Proof.
  induction ps as [|[k0 v0] ps IH]; simpl.
  - destruct (String.eqb k k'); reflexivity.
  - destruct (String.eqb_spec k' k0) as [->|Hne]; simpl.
    + destruct (String.eqb k k0); reflexivity.
    + rewrite IH. destruct (String.eqb_spec k k0) as [->|Hk].
      * destruct (String.eqb_spec k0 k'); [congruence | reflexivity].
      * reflexivity.
Qed.

Lemma collect_foldl (error : jsobject) (keys : list string) (acc : list (string * jsval))
    (k : string) :
  Js.assoc k
    (foldl (fun extraErrorInfo key => Js.set extraErrorInfo key (Js.get error key)) acc keys)
  = if bool_decide (k ∈ keys) then Some (Js.get error k) else Js.assoc k acc.
Proof.
  revert acc. induction keys as [|key keys IH]; intros acc; cbn [foldl].
  - case_bool_decide as H; [inversion H | reflexivity].
  - rewrite IH, assoc_set.
    destruct (bool_decide_reflect (k ∈ keys)) as [Hin|Hnin].
    + rewrite bool_decide_eq_true_2 by (apply list_elem_of_further, Hin). reflexivity.
    + destruct (String.eqb_spec k key) as [->|Hne].
      * rewrite bool_decide_eq_true_2 by apply list_elem_of_here. reflexivity.
      * rewrite bool_decide_eq_false_2; [reflexivity|].
        intros H. apply elem_of_cons in H as [?|?]; contradiction.
Qed.

(** What [parseError] collects: an own enumerable property is copied under
    the type name with its value exactly when [key in [...]] does not find
    its key, that is when the key is none of [0] to [3], [length] and the
    inherited names. *)
Lemma parseError_extra_keys (host : Host) (error : jsobject) (event : SentryEvent)
    (key : string) :
  parseError host error = Ok event ->
  (exists name props, extra event = Some [(name, props)]
                      /\ Js.assoc key props = Some (Js.get error key))
  <-> (key ∈ Js.keys error /\ key_in_reserved host key = false).
Proof.
  intros H.
  destruct (parseError_inv _ _ _ H)
    as (name & exception & name_text & message_text & _ & _ & _ & _ & ->).
  cbn [extra].
  set (errorKeys := List.filter _ (Js.keys error)).
  assert (key ∈ errorKeys <-> key ∈ Js.keys error /\ key_in_reserved host key = false)
    as Hkeys.
  { unfold errorKeys. rewrite !list_elem_of_In, filter_In, negb_true_iff. reflexivity. }
  rewrite <- Hkeys. split.
  - intros (n & props & Hextra & Hprop).
    destruct errorKeys as [|k0 ks] eqn:Hk; [discriminate|].
    injection Hextra as <- <-. unfold collectExtra in Hprop. rewrite collect_foldl in Hprop.
    destruct (bool_decide_reflect (key ∈ k0 :: ks)); [assumption | discriminate].
  - intros Hin. destruct errorKeys as [|k0 ks] eqn:Hk; [inversion Hin|].
    eexists _, _. split; [reflexivity|].
    unfold collectExtra. rewrite collect_foldl.
    rewrite bool_decide_eq_true_2 by exact Hin. reflexivity.
Qed.

(** ** Frames and call sites *)

Lemma addContextLines_base_fields (host : Host) (lines : list string) (frame : StackFrame) :
  colno (addContextLines host lines frame) = colno frame
  /\ function (addContextLines host lines frame) = function frame
  /\ lineno (addContextLines host lines frame) = lineno frame
  /\ in_app (addContextLines host lines frame) = in_app frame
  /\ module (addContextLines host lines frame) = module frame.
Proof.
  unfold addContextLines.
  repeat match goal with
         | |- context [match ?r with Ok _ => _ | Throw _ => _ end] => destruct r
         end; repeat split; reflexivity.
Qed.

Lemma addContext_base_fields (host : Host) (sourceFiles : source_files) (frame : StackFrame) :
  colno (addContext host sourceFiles frame) = colno frame
  /\ function (addContext host sourceFiles frame) = function frame
  /\ lineno (addContext host sourceFiles frame) = lineno frame
  /\ in_app (addContext host sourceFiles frame) = in_app frame
  /\ module (addContext host sourceFiles frame) = module frame.
Proof.
  unfold addContext. destruct (filename frame) as [name|]; [|repeat split; reflexivity].
  destruct (negb (String.eqb name "") && Js.truthy (lookup_source host sourceFiles name));
    [|repeat split; reflexivity].
  destruct (lookup_source host sourceFiles name); try (repeat split; reflexivity).
  apply addContextLines_base_fields.
Qed.

(** The frames and the requested files of [parseStack]'s traversal, call
    site by call site. *)
Lemma parseFrames_unfold (host : Host) (stack : list CallSite) (acc : list string) :
  parseFrames host stack acc
  = ((fun site => (parseFrame host site []).1) <$> stack,
     (acc ++ omap requested_file stack)%list).
Proof.
  revert acc. induction stack as [|site stack IH]; intros acc.
  - simpl. rewrite app_nil_r. reflexivity.
  - cbn [parseFrames]. unfold parseFrame at 1. rewrite IH. cbn [fmap list_fmap omap list_omap].
    f_equal. fold (site_filename site). unfold requested_file.
    destruct (negb (String.eqb (site_filename site) "")
              && negb (isInternal site (site_filename site)));
      [rewrite <- app_assoc|]; reflexivity.
Qed.

Lemma parseStack_unfold (host : Host) (stack : list CallSite) :
  parseStack host stack
  = Ok ((fun site =>
           addContext host (readSourceFiles host (omap requested_file stack))
             (parseFrame host site []).1) <$> stack).
Proof.
  unfold parseStack, addPrePostContext. rewrite parseFrames_unfold.
  cbn [app]. rewrite <- list_fmap_compose. reflexivity.
Qed.

(** X1.  [parseStack] returns one frame for each call site, in the order
    of the stack; position, file name and function name of a frame are
    those of its call site (the file name defaulting to the empty string),
    whatever the enrichment does, and the module name is present exactly
    for a non-empty file name. *)
Theorem parseStack_frame_of_site (host : Host) (stack : list CallSite) :
  exists parsed,
    parseStack host stack = Ok parsed
    /\ length parsed = length stack
    /\ forall i site, stack !! i = Some site ->
         exists frame,
           parsed !! i = Some frame
           /\ colno frame = getColumnNumber site
           /\ lineno frame = getLineNumber site
           /\ filename frame = Some (site_filename site)
           /\ function frame = Some (getFunction site)
           /\ module frame
              = (if String.eqb (site_filename site) "" then None
                 else Some (getModule host (site_filename site) None)).
Proof.
  eexists. split; [apply parseStack_unfold|]. split; [apply length_fmap|].
  intros i site Hi. eexists. split; [rewrite list_lookup_fmap, Hi; reflexivity|].
  rewrite addContext_filename.
  destruct (addContext_base_fields host
              (readSourceFiles host (omap requested_file stack))
              (parseFrame host site []).1) as (-> & -> & -> & _ & ->).
  unfold parseFrame, site_filename. cbn [fst colno lineno filename function module].
  destruct (String.eqb (Js.name_or (getFileName site) "") ""); repeat split; reflexivity.
Qed.

(** X2.  A frame of [parseStack] is in-app exactly when its call site is
    not native, its file name does not contain [node_modules/], and the
    file name is empty, starts with a slash or a dot, or has a drive
    separator at offset 1; otherwise [in_app] is false, never absent. *)
Theorem parseStack_in_app (host : Host) (stack : list CallSite) (parsed : list StackFrame)
    (i : nat) (site : CallSite) (frame : StackFrame) :
  parseStack host stack = Ok parsed ->
  stack !! i = Some site ->
  parsed !! i = Some frame ->
  in_app frame
  = Some (negb (isNative site)
          && negb (JsString.includes (site_filename site) "node_modules/")
          && path_shaped (site_filename site)).
Proof.
  rewrite parseStack_unfold. intros Hp Hi Hf. injection Hp as <-.
  rewrite list_lookup_fmap, Hi in Hf. injection Hf as <-.
  destruct (addContext_base_fields host
              (readSourceFiles host (omap requested_file stack))
              (parseFrame host site []).1) as (_ & _ & _ & Hin & _).
  etransitivity; [exact Hin|].
  unfold parseFrame, isInternal, path_shaped, site_filename.
  cbn [fst in_app]. f_equal.
  rewrite bool_decide_eq_true_2 by discriminate.
  destruct (isNative site), (String.eqb (Js.name_or (getFileName site) "") ""),
    (JsString.startsWith (Js.name_or (getFileName site) "") "/"),
    (JsString.startsWith (Js.name_or (getFileName site) "") "."),
    (JsString.indexOf (Js.name_or (getFileName site) "") ":\" =? 1),
    (JsString.includes (Js.name_or (getFileName site) "") "node_modules/"); reflexivity.
Qed.

Lemma parseStack_in_app_witness :
  in_app
    {| colno := Some 1; filename := Some "events.js"; function := Some "f";
       lineno := Some 2; in_app := Some false; module := Some "events";
       pre_context := None; context_line := None; post_context := None |}
  = Some (negb (isNative (Sample.site (NStr "f") (NStr "events.js") 2 1))
          && negb (JsString.includes
                     (site_filename (Sample.site (NStr "f") (NStr "events.js") 2 1))
                     "node_modules/")
          && path_shaped (site_filename (Sample.site (NStr "f") (NStr "events.js") 2 1))).
Proof.
  exact (parseStack_in_app (Sample.host [] [("events.js", "a")])
           [Sample.site (NStr "f") (NStr "events.js") 2 1] _ 0%nat _ _
           eq_refl eq_refl eq_refl).
Defined.

Lemma elem_of_requested (stack : list CallSite) (name : string) :
  name ∈ omap requested_file stack
  <-> exists site, site ∈ stack /\ site_filename site = name
                   /\ name <> "" /\ isInternal site name = false.
Proof.
  rewrite list_elem_of_omap. unfold requested_file. split.
  - intros (site & Hin & Hreq). exists site. split; [exact Hin|].
    destruct (String.eqb_spec (site_filename site) "") as [He|He]; [discriminate|].
    destruct (isInternal site (site_filename site)) eqn:Hint; [discriminate|].
    injection Hreq as <-. auto.
  - intros (site & Hin & <- & Hne & Hint). exists site. split; [exact Hin|].
    rewrite Hint. destruct (String.eqb_spec (site_filename site) ""); [contradiction|].
    reflexivity.
Qed.

(** X3.  The files that [parseStack] asks [addPrePostContext] to read are
    the non-empty file names of the call sites that are not internal, one
    entry for each such call site in the order of the stack: a file of
    several frames is listed several times, and a file under
    [node_modules/] is listed like any other. *)
Theorem parseStack_requested_files (host : Host) (stack : list CallSite) :
  (parseFrames host stack []).2 = omap requested_file stack
  /\ (forall name,
        name ∈ (parseFrames host stack []).2
        <-> exists site, site ∈ stack /\ site_filename site = name
                         /\ name <> "" /\ isInternal site name = false)
  /\ parseStack host stack
     = addPrePostContext host (parseFrames host stack []).2 (parseFrames host stack []).1.
Proof.
  rewrite parseFrames_unfold. cbn [fst snd app]. split; [reflexivity|]. split.
  - intros name. apply elem_of_requested.
  - unfold parseStack. rewrite parseFrames_unfold. reflexivity.
Qed.

(** ** The object of file contents *)

Lemma foldl_read_proto (host : Host) (filenames : list string) (sourceFiles : source_files) :
  foldl (readSourceFile host) sourceFiles filenames !! "__proto__"
  = sourceFiles !! "__proto__".
Proof.
  revert sourceFiles. induction filenames as [|x filenames IH]; intros sourceFiles;
    [reflexivity|].
  simpl. rewrite IH. unfold readSourceFile, store_source.
  destruct (readFileAsync host x) as [[| | | |s|]|e]; try reflexivity.
  destruct (String.eqb_spec x "__proto__") as [He|Hne]; [reflexivity|].
  apply lookup_insert_ne. exact Hne.
Qed.

Lemma readSourceFiles_lookup_iff (host : Host) (filenames : list string)
    (name content : string) :
  readSourceFiles host filenames !! name = Some content
  <-> name ∈ filenames /\ name <> "__proto__"
      /\ readFileAsync host name = Ok (VStr content).
Proof.
  rewrite readSourceFiles_foldl. split.
  - intros H. destruct (foldl_read_lookup _ _ _ _ _ H) as [Habs | [Hin Hread]].
    + rewrite lookup_empty in Habs. discriminate.
    + split; [exact Hin|]. split; [|exact Hread].
      intros ->. rewrite foldl_read_proto, lookup_empty in H. discriminate.
  - intros (Hin & Hproto & Hread). apply foldl_read_found; auto.
Qed.

(** X4.  [readSourceFiles] returns an object that holds, for a file name,
    exactly the text that the read of a requested file returned: a file
    that was not requested, whose read fails, or whose read returns
    something that is not a string has no entry (nor has the name
    [__proto__]). *)
Theorem readSourceFiles_entries (host : Host) (filenames : list string) (name : string) :
  readSourceFiles host filenames !! name
  = (if bool_decide (name ∈ filenames) && negb (String.eqb name "__proto__")
     then match readFileAsync host name with
          | Ok (VStr content) => Some content
          | _ => None
          end
     else None).
Proof.
  destruct (readSourceFiles host filenames !! name) as [content|] eqn:H.
  - apply readSourceFiles_lookup_iff in H as (Hin & Hproto & ->).
    rewrite bool_decide_eq_true_2 by exact Hin.
    destruct (String.eqb_spec name "__proto__"); [contradiction | reflexivity].
  - destruct (bool_decide_reflect (name ∈ filenames)) as [Hin|_]; [|reflexivity].
    destruct (String.eqb_spec name "__proto__") as [_|Hproto]; [reflexivity|].
    simpl. destruct (readFileAsync host name) as [[| | | |content|]|e] eqn:Hread;
      try reflexivity.
    assert (readSourceFiles host filenames !! name = Some content) as Hsome
      by (apply readSourceFiles_lookup_iff; auto).
    congruence.
Qed.

(** X5.  The object that [readSourceFiles] returns depends on the set of
    requested names only: the order of the requests (the order in which the
    reads settle) and repeated requests of one file make no difference. *)
Theorem readSourceFiles_set (host : Host) (filenames1 filenames2 : list string) :
  (forall name, name ∈ filenames1 <-> name ∈ filenames2) ->
  readSourceFiles host filenames1 = readSourceFiles host filenames2.
Proof.
  intros Hsame. apply map_eq. intros name.
  destruct (readSourceFiles host filenames1 !! name) as [content|] eqn:H1;
    destruct (readSourceFiles host filenames2 !! name) as [content'|] eqn:H2;
    try reflexivity.
  - apply readSourceFiles_lookup_iff in H1 as (_ & _ & H1).
    apply readSourceFiles_lookup_iff in H2 as (_ & _ & H2). congruence.
  - apply readSourceFiles_lookup_iff in H1 as (Hin & Hp & Hr).
    assert (readSourceFiles host filenames2 !! name = Some content) as H
      by (apply readSourceFiles_lookup_iff; split; [apply Hsame, Hin | auto]).
    congruence.
  - apply readSourceFiles_lookup_iff in H2 as (Hin & Hp & Hr).
    assert (readSourceFiles host filenames1 !! name = Some content') as H
      by (apply readSourceFiles_lookup_iff; split; [apply Hsame, Hin | auto]).
    congruence.
Qed.

Lemma readSourceFiles_set_witness :
  readSourceFiles (Sample.host [] [("/app/a.js", "a"); ("/app/b.js", "b")])
    ["/app/a.js"; "/app/b.js"; "/app/a.js"]
  = readSourceFiles (Sample.host [] [("/app/a.js", "a"); ("/app/b.js", "b")])
      ["/app/b.js"; "/app/a.js"].
Proof.
  apply (readSourceFiles_set (Sample.host [] [("/app/a.js", "a"); ("/app/b.js", "b")])
           ["/app/a.js"; "/app/b.js"; "/app/a.js"] ["/app/b.js"; "/app/a.js"]).
  intros name. rewrite !elem_of_cons, !elem_of_nil. tauto.
Defined.

(** ** Enrichment, frame by frame *)

(** [arr.slice(from, to)] for two offsets that are not negative. *)
Lemma slice_nonneg {A} (arr : list A) (from to : Z) :
  0 <= from -> 0 <= to ->
  JsArray.slice arr from to = take (Z.to_nat (to - from)) (drop (Z.to_nat from) arr).
Proof.
  intros Hf Ht. unfold JsArray.slice, JsArray.clamp_index.
  destruct (Z.ltb_spec from 0) as [?|_]; [lia|].
  destruct (Z.ltb_spec to 0) as [?|_]; [lia|].
  destruct (Z.le_gt_cases from (Z.of_nat (length arr))) as [Hin|Hout].
  - rewrite (Z.min_l from) by lia.
    destruct (Z.le_gt_cases to (Z.of_nat (length arr))) as [Hto|Hto].
    + rewrite Z.min_l by lia. reflexivity.
    + rewrite Z.min_r by lia.
      rewrite !take_ge; [reflexivity | rewrite length_drop; lia | rewrite length_drop; lia].
  - rewrite (Z.min_r from) by lia.
    rewrite (drop_ge arr (Z.to_nat from)) by lia.
    rewrite (drop_ge arr (Z.to_nat (Z.of_nat (length arr)))) by lia.
    rewrite !take_nil. reflexivity.
Qed.

(** X6.  [addPrePostContext] always returns, with as many frames as it was
    given, and it returns a frame as it is when the frame has no file
    name, or an empty one, or its file was not requested, or the read of
    its file did not return a non-empty text. *)
Theorem addPrePostContext_without_content (host : Host) (filesToRead : list string)
    (frames : list StackFrame) :
  exists enriched,
    addPrePostContext host filesToRead frames = Ok enriched
    /\ length enriched = length frames
    /\ forall i frame, frames !! i = Some frame ->
         match filename frame with
         | None => True
         | Some name =>
             name = "" \/ name ∉ filesToRead
             \/ (forall content, readFileAsync host name = Ok (VStr content) -> content = "")
         end ->
         enriched !! i = Some frame.
Proof.
  unfold addPrePostContext. eexists. split; [reflexivity|]. split; [apply length_fmap|].
  intros i frame Hi Hno. rewrite list_lookup_fmap, Hi. simpl. f_equal.
  unfold addContext. destruct (filename frame) as [name|]; [|reflexivity].
  destruct (String.eqb_spec name "") as [He|Hne]; [reflexivity|].
  unfold lookup_source. simpl.
  destruct (readSourceFiles host filesToRead !! name) as [content|] eqn:Hsrc.
  - apply readSourceFiles_lookup_iff in Hsrc as (Hin & _ & Hread).
    destruct Hno as [? | [? | Hempty]]; try contradiction.
    rewrite (Hempty _ Hread). reflexivity.
  - destruct (existsb (String.eqb name) (object_prototype_keys host)); reflexivity.
Qed.

Lemma addPrePostContext_without_content_witness :
  exists enriched,
    addPrePostContext (Sample.host [] []) ["/app/a.js"] [Sample.frame_at 10 4] = Ok enriched
    /\ enriched !! 0%nat = Some (Sample.frame_at 10 4).
Proof.
  destruct (addPrePostContext_without_content (Sample.host [] []) ["/app/a.js"]
              [Sample.frame_at 10 4]) as (enriched & Hrun & _ & Hsame).
  exists enriched. split; [exact Hrun|].
  apply (Hsame 0%nat (Sample.frame_at 10 4) eq_refl).
  right. right. intros content H. discriminate H.
Defined.

Lemma addContextLines_snip (h1 h2 : Host) (lines : list string) (frame : StackFrame) :
  snipLine h1 = snipLine h2 ->
  addContextLines h1 lines frame = addContextLines h2 lines frame.
Proof. intros H. unfold addContextLines. rewrite H. reflexivity. Qed.

Lemma readSourceFiles_same_read (h1 h2 : Host) (filenames : list string) (name : string) :
  readFileAsync h1 name = readFileAsync h2 name ->
  readSourceFiles h1 filenames !! name = readSourceFiles h2 filenames !! name.
Proof.
  intros Hread.
  destruct (readSourceFiles h1 filenames !! name) as [content|] eqn:H1;
    destruct (readSourceFiles h2 filenames !! name) as [content'|] eqn:H2;
    try reflexivity.
  - apply readSourceFiles_lookup_iff in H1 as (_ & _ & H1).
    apply readSourceFiles_lookup_iff in H2 as (_ & _ & H2). congruence.
  - apply readSourceFiles_lookup_iff in H1 as (Hin & Hp & Hr). rewrite Hread in Hr.
    assert (readSourceFiles h2 filenames !! name = Some content) as H
      by (apply readSourceFiles_lookup_iff; auto).
    congruence.
  - apply readSourceFiles_lookup_iff in H2 as (Hin & Hp & Hr). rewrite <- Hread in Hr.
    assert (readSourceFiles h1 filenames !! name = Some content') as H
      by (apply readSourceFiles_lookup_iff; auto).
    congruence.
Qed.

(** X7.  What the enrichment makes of a frame depends on the read of the
    frame's own file only: two hosts that snip alike and agree on that one
    read give the frame the same context, whatever the reads of the other
    requested files return. *)
Theorem enrichment_of_own_file (h1 h2 : Host) (filesToRead : list string)
    (frames : list StackFrame) (i : nat) (frame : StackFrame) (name : string) :
  snipLine h1 = snipLine h2 ->
  object_prototype_keys h1 = object_prototype_keys h2 ->
  frames !! i = Some frame ->
  filename frame = Some name ->
  readFileAsync h1 name = readFileAsync h2 name ->
  exists enriched1 enriched2,
    addPrePostContext h1 filesToRead frames = Ok enriched1
    /\ addPrePostContext h2 filesToRead frames = Ok enriched2
    /\ enriched1 !! i = enriched2 !! i.
Proof.
  intros Hsnip Hkeys Hi Hname Hread. unfold addPrePostContext.
  eexists _, _. split; [reflexivity|]. split; [reflexivity|].
  rewrite !list_lookup_fmap, Hi. simpl. f_equal.
  unfold addContext. rewrite Hname. unfold lookup_source.
  rewrite (readSourceFiles_same_read h1 h2 filesToRead name Hread), Hkeys.
  destruct (negb (String.eqb name "") && _); [|reflexivity].
  destruct (readSourceFiles h2 filesToRead !! name) as [content|].
  - apply addContextLines_snip, Hsnip.
  - destruct (existsb (String.eqb name) (object_prototype_keys h2)); reflexivity.
Qed.

Lemma enrichment_of_own_file_witness :
  exists enriched1 enriched2,
    addPrePostContext (Sample.host [] [("/app/a.js", Sample.text_of ["a"; "b"; "c"])])
      ["/app/a.js"; "/app/b.js"] [Sample.frame_at 2 1]
    = Ok enriched1
    /\ addPrePostContext
         (Sample.host [] [("/app/a.js", Sample.text_of ["a"; "b"; "c"]); ("/app/b.js", "x")])
         ["/app/a.js"; "/app/b.js"] [Sample.frame_at 2 1]
       = Ok enriched2
    /\ enriched1 !! 0%nat = enriched2 !! 0%nat.
Proof.
  exact (enrichment_of_own_file
           (Sample.host [] [("/app/a.js", Sample.text_of ["a"; "b"; "c"])])
           (Sample.host [] [("/app/a.js", Sample.text_of ["a"; "b"; "c"]); ("/app/b.js", "x")])
           ["/app/a.js"; "/app/b.js"] [Sample.frame_at 2 1] 0%nat (Sample.frame_at 2 1)
           "/app/a.js" eq_refl eq_refl eq_refl eq_refl eq_refl).
Defined.

(** X8.  For a frame at line [n] of a file ([n] counted from 1 and not
    beyond the last line), the context is the window around that line:
    [pre_context] is the snipped lines from line [n - 7] (or from the first
    line) to line [n - 1], [context_line] is line [n] snipped at the
    frame's column, and [post_context] is the snipped lines from line
    [n + 1] to line [n + 7] (or to the last line).  So the two lists have
    [min 7 (n - 1)] lines and [min 7 (length - n)] lines. *)
Theorem context_window (host : Host) (lines : list string) (frame : StackFrame) (n : Z)
    (pre post : list string) (line : string) :
  lineno frame = Some n ->
  1 <= n <= Z.of_nat (length lines) ->
  result_map (fun l => snipLine host (Some l) 0)
    (take (Z.to_nat (n - 1) - Z.to_nat (n - 8)) (drop (Z.to_nat (n - 8)) lines)) = Ok pre ->
  snipLine host (lines !! Z.to_nat (n - 1)) (Js.num_or_zero (colno frame)) = Ok line ->
  result_map (fun l => snipLine host (Some l) 0) (take 7 (drop (Z.to_nat n) lines))
  = Ok post ->
  addContextLines host lines frame
  = set_post_context (set_context_line (set_pre_context frame pre) line) post
  /\ Z.of_nat (length pre) = Z.min 7 (n - 1)
  /\ Z.of_nat (length post) = Z.min 7 (Z.of_nat (length lines) - n).
Proof.
  intros Hline Hn Hpre Hcur Hpost. split.
  - unfold addContextLines. rewrite Hline.
    change (Js.num_or_zero (Some n)) with n.
    unfold LINES_OF_CONTEXT. rewrite !slice_nonneg by lia.
    replace (Z.to_nat (n - 1 - Z.max 0 (n - (7 + 1))))
      with (Z.to_nat (n - 1) - Z.to_nat (n - 8))%nat by lia.
    replace (Z.to_nat (Z.max 0 (n - (7 + 1)))) with (Z.to_nat (n - 8)) by lia.
    replace (Z.to_nat (n + 7 - n)) with 7%nat by lia.
    rewrite Hpre. cbn [colno set_pre_context].
    unfold JsArray.at_index. destruct (Z.ltb_spec (n - 1) 0) as [?|_]; [lia|].
    rewrite Hcur, Hpost. reflexivity.
  - apply result_map_length in Hpre, Hpost.
    rewrite length_take, length_drop in Hpre, Hpost. lia.
Qed.

Lemma context_window_witness :
  addContextLines (Sample.host [] []) ["a"; "b"; "c"] (Sample.frame_at 2 1)
  = set_post_context
      (set_context_line (set_pre_context (Sample.frame_at 2 1) ["a"]) "b") ["c"]
  /\ Z.of_nat (length ["a"]) = Z.min 7 (2 - 1)
  /\ Z.of_nat (length ["c"]) = Z.min 7 (Z.of_nat (length ["a"; "b"; "c"]) - 2).
Proof.
  apply (context_window (Sample.host [] []) ["a"; "b"; "c"] (Sample.frame_at 2 1) 2
           ["a"] ["c"] "b"); try reflexivity.
  simpl. lia.
Defined.

(** X9.  For a frame whose line number lies beyond the last line of its
    file, [pre_context] is set to the snipped lines from line [n - 7] on;
    the context line is [undefined], and when [snipLine] raises on it the
    frame keeps its [context_line] and [post_context] as they were: the
    frame is left with a [pre_context] only. *)
Theorem context_beyond_last_line (host : Host) (lines : list string) (frame : StackFrame)
    (n : Z) (pre : list string) (e : exn) :
  lineno frame = Some n ->
  Z.of_nat (length lines) < n ->
  result_map (fun l => snipLine host (Some l) 0) (drop (Z.to_nat (n - 8)) lines) = Ok pre ->
  snipLine host None (Js.num_or_zero (colno frame)) = Throw e ->
  addContextLines host lines frame = set_pre_context frame pre.
Proof.
  intros Hline Hn Hpre Hcur. unfold addContextLines. rewrite Hline.
  change (Js.num_or_zero (Some n)) with n. unfold LINES_OF_CONTEXT.
  rewrite (slice_nonneg lines (Z.max 0 (n - (7 + 1))) (n - 1)) by lia.
  replace (Z.to_nat (Z.max 0 (n - (7 + 1)))) with (Z.to_nat (n - 8)) by lia.
  rewrite take_ge by (rewrite length_drop; lia).
  rewrite Hpre. cbn [colno set_pre_context].
  unfold JsArray.at_index. destruct (Z.ltb_spec (n - 1) 0) as [?|_]; [lia|].
  rewrite (lookup_ge_None_2 lines (Z.to_nat (n - 1))) by lia.
  rewrite Hcur. reflexivity.
Qed.

Lemma context_beyond_last_line_witness :
  addContextLines (Sample.host [] []) ["a"; "b"; "c"] (Sample.frame_at 4 1)
  = set_pre_context (Sample.frame_at 4 1) ["a"; "b"; "c"].
Proof.
  apply (context_beyond_last_line (Sample.host [] []) ["a"; "b"; "c"] (Sample.frame_at 4 1)
           4 ["a"; "b"; "c"] (TypeError "Cannot read property 'length' of undefined"));
    reflexivity.
Defined.

Lemma addContextLines_in_order (host : Host) (lines : list string) (frame : StackFrame) :
  ~ has_context frame ->
  (is_Some (post_context (addContextLines host lines frame)) ->
   is_Some (context_line (addContextLines host lines frame)))
  /\ (is_Some (context_line (addContextLines host lines frame)) ->
      is_Some (pre_context (addContextLines host lines frame))).
Proof.
  intros Hno. unfold has_context in Hno. unfold addContextLines.
  repeat match goal with
         | |- context [match ?r with Ok _ => _ | Throw _ => _ end] => destruct r
         end; cbn; split; intros H; eauto; exfalso; apply Hno; auto.
Qed.

Lemma addContext_in_order (host : Host) (sourceFiles : source_files) (frame : StackFrame) :
  ~ has_context frame ->
  (is_Some (post_context (addContext host sourceFiles frame)) ->
   is_Some (context_line (addContext host sourceFiles frame)))
  /\ (is_Some (context_line (addContext host sourceFiles frame)) ->
      is_Some (pre_context (addContext host sourceFiles frame))).
Proof.
  intros Hno.
  assert ((is_Some (post_context frame) -> is_Some (context_line frame))
          /\ (is_Some (context_line frame) -> is_Some (pre_context frame))) as Hsame.
  { split; intros H; exfalso; apply Hno; unfold has_context; auto. }
  unfold addContext. destruct (filename frame) as [name|]; [|exact Hsame].
  destruct (negb (String.eqb name "") && Js.truthy (lookup_source host sourceFiles name));
    [|exact Hsame].
  destruct (lookup_source host sourceFiles name); try exact Hsame.
  apply addContextLines_in_order, Hno.
Qed.

(** X10.  In every frame of [parseStack] the context fields are filled in
    the order of the assignments: a frame with a [post_context] has a
    [context_line], and a frame with a [context_line] has a [pre_context]
    (an exception in between leaves the earlier fields set). *)
Theorem parseStack_context_in_order (host : Host) (stack : list CallSite)
    (parsed : list StackFrame) (frame : StackFrame) :
  parseStack host stack = Ok parsed ->
  frame ∈ parsed ->
  (is_Some (post_context frame) -> is_Some (context_line frame))
  /\ (is_Some (context_line frame) -> is_Some (pre_context frame)).
Proof.
  rewrite parseStack_unfold. intros Hp Hin. injection Hp as <-.
  apply list_elem_of_fmap in Hin as (site & -> & _).
  apply addContext_in_order.
  intros [H | [H | H]]; destruct H as [? H]; discriminate H.
Qed.

Lemma parseStack_context_in_order_witness :
  parseStack (Sample.host [] [("/app/a.js", Sample.text_of ["a"; "b"; "c"])])
    [Sample.site (NStr "f") (NStr "/app/a.js") 2 1]
  = Ok [set_post_context
          (set_context_line (set_pre_context (Sample.frame_at 2 1) ["a"]) "b") ["c"]]
  /\ is_Some
       (post_context
          (set_post_context
             (set_context_line (set_pre_context (Sample.frame_at 2 1) ["a"]) "b") ["c"]))
  /\ is_Some
       (context_line
          (set_post_context
             (set_context_line (set_pre_context (Sample.frame_at 2 1) ["a"]) "b") ["c"]))
  /\ is_Some
       (pre_context
          (set_post_context
             (set_context_line (set_pre_context (Sample.frame_at 2 1) ["a"]) "b") ["c"])).
Proof.
  destruct (parseStack_context_in_order
              (Sample.host [] [("/app/a.js", Sample.text_of ["a"; "b"; "c"])])
              [Sample.site (NStr "f") (NStr "/app/a.js") 2 1]
              [set_post_context
                 (set_context_line (set_pre_context (Sample.frame_at 2 1) ["a"]) "b") ["c"]]
              (set_post_context
                 (set_context_line (set_pre_context (Sample.frame_at 2 1) ["a"]) "b") ["c"])
              eq_refl (list_elem_of_here _ _)) as [Hline Hpre].
  split; [reflexivity|].
  assert (is_Some
            (post_context
               (set_post_context
                  (set_context_line (set_pre_context (Sample.frame_at 2 1) ["a"]) "b")
                  ["c"]))) as Hpost by (exists ["c"]; reflexivity).
  split; [exact Hpost|]. split; [exact (Hline Hpost) | exact (Hpre (Hline Hpost))].
Defined.

(** ** The exception record and the event *)

(** X11.  The exception record has one frame for each entry of the raw
    stack, less one when the function name of the first (innermost) entry
    names a capture entry point. *)
Theorem exception_frame_count (host : Host) (error : jsobject) (exception : SentryException)
    (stack : list CallSite) :
  getExceptionFromError host error = Ok exception ->
  extractStackFromError host error = Ok stack ->
  length (frames exception)
  = (length stack
     - match stack with
       | site :: _ => if names_capture (getFunction site) then 1 else 0
       | [] => 0
       end)%nat.
Proof.
  intros Hex Hstack.
  destruct (getExceptionFromError_frames _ _ _ Hex) as (stack' & parsed & Hs & Hp & ->).
  rewrite Hstack in Hs. injection Hs as <-.
  set (sourceFiles := readSourceFiles host (omap requested_file stack)).
  assert (parsed = (fun site => addContext host sourceFiles (parseFrame host site []).1)
                     <$> stack) as ->.
  { rewrite parseStack_unfold in Hp. injection Hp as <-. reflexivity. }
  clear Hp. clearbody sourceFiles.
  rewrite length_rev. destruct stack as [|site rest]; [reflexivity|].
  cbn [fmap list_fmap retained_frames].
  assert (is_capture_frame (addContext host sourceFiles (parseFrame host site []).1)
          = names_capture (getFunction site)) as ->.
  { unfold is_capture_frame.
    destruct (addContext_base_fields host sourceFiles (parseFrame host site []).1)
      as (_ & -> & _). reflexivity. }
  destruct (names_capture (getFunction site)); cbn [length]; rewrite length_fmap; lia.
Qed.

Lemma exception_frame_count_witness :
  length
    [{| colno := Some 4; filename := Some "/app/a.js"; function := Some "f";
        lineno := Some 10; in_app := Some true; module := Some "a";
        pre_context := None; context_line := None; post_context := None |}]
  = (length [Sample.site (NStr "Hub.captureException") (NStr "/app/sdk.js") 3 1;
             Sample.site (NStr "f") (NStr "/app/a.js") 10 4]
     - (if names_capture
             (getFunction (Sample.site (NStr "Hub.captureException") (NStr "/app/sdk.js") 3 1))
        then 1 else 0))%nat.
Proof.
  exact (exception_frame_count
           (Sample.host [Sample.site (NStr "Hub.captureException") (NStr "/app/sdk.js") 3 1;
                         Sample.site (NStr "f") (NStr "/app/a.js") 10 4] [])
           (Sample.error_with [])
           {| frames := _; type := VStr "Error"; value := VStr "boom" |} _ eq_refl eq_refl).
Defined.

Lemma getExceptionFromError_type_value (host : Host) (error : jsobject)
    (exception : SentryException) :
  getExceptionFromError host error = Ok exception ->
  errorName error = Ok (type exception) /\ value exception = Js.get error "message".
Proof.
  unfold getExceptionFromError. intros Hex.
  destruct (errorName error) as [name|e]; result_step Hex; [|discriminate].
  destruct (extractStackFromError host error) as [stack|e]; result_step Hex;
    [|discriminate].
  destruct (parseStack host stack) as [parsed|e]; result_step Hex; [|discriminate].
  destruct (alloc parsed ∅) as [r h].
  destruct (prepareFramesForEvent (Some r) h) as [prepared h'].
  injection Hex as <-. split; reflexivity.
Qed.

(** X12.  [getExceptionFromError] puts the frames of [parseStack] in
    presentation order: they are the frames of the raw stack reversed, the
    first one left out when it is a capture frame; [type] is the resolved
    name of the error and [value] its message, as it is. *)
Theorem exception_of_error (host : Host) (error : jsobject) (exception : SentryException) :
  getExceptionFromError host error = Ok exception ->
  exists name stack parsed,
    errorName error = Ok name
    /\ extractStackFromError host error = Ok stack
    /\ parseStack host stack = Ok parsed
    /\ frames exception = rev (retained_frames parsed)
    /\ type exception = name
    /\ value exception = Js.get error "message".
Proof.
  intros Hex.
  destruct (getExceptionFromError_frames _ _ _ Hex) as (stack & parsed & Hs & Hp & Hf).
  destruct (getExceptionFromError_type_value _ _ _ Hex) as [Hn Hv].
  exists (type exception), stack, parsed. auto 10.
Qed.

Lemma exception_of_error_witness :
  exists name stack parsed,
    errorName (Sample.error_with []) = Ok name
    /\ extractStackFromError (Sample.host Sample.two_sites []) (Sample.error_with [])
       = Ok stack
    /\ parseStack (Sample.host Sample.two_sites []) stack = Ok parsed
    /\ frames Sample.two_frame_exception = rev (retained_frames parsed)
    /\ type Sample.two_frame_exception = name
    /\ value Sample.two_frame_exception = Js.get (Sample.error_with []) "message".
Proof.
  exact (exception_of_error (Sample.host Sample.two_sites []) (Sample.error_with [])
           Sample.two_frame_exception eq_refl).
Defined.

(** X13.  The event of [parseError] holds exactly one exception, the one
    that [getExceptionFromError] returns for the error, and its summary is
    the type name of that exception as text, a colon and the message of
    the error as text, or [<no message>] in place of a message that is
    absent or empty. *)
Theorem event_of_error (host : Host) (error : jsobject) (event : SentryEvent) :
  parseError host error = Ok event ->
  exists exception name_text message_text,
    getExceptionFromError host error = Ok exception
    /\ exception_values event = [exception]
    /\ to_string host (type exception) = Ok name_text
    /\ (if Js.truthy (Js.get error "message")
        then to_string host (Js.get error "message")
        else Ok "<no message>") = Ok message_text
    /\ message event = (name_text ++ ": " ++ message_text)%string.
Proof.
  intros H.
  destruct (parseError_inv _ _ _ H)
    as (name & exception & name_text & message_text & Hn & Hex & Hnt & Hmt & ->).
  exists exception, name_text, message_text.
  split; [exact Hex|]. split; [reflexivity|].
  destruct (getExceptionFromError_type_value _ _ _ Hex) as [Hty _].
  rewrite Hn in Hty. injection Hty as <-.
  split; [exact Hnt|]. split; [|reflexivity].
  unfold Js.or in Hmt. destruct (Js.truthy (Js.get error "message")); exact Hmt.
Qed.

Lemma event_of_error_witness :
  exists exception name_text message_text,
    getExceptionFromError (Sample.host Sample.two_sites []) Sample.silent_error
    = Ok exception
    /\ exception_values Sample.silent_event = [exception]
    /\ to_string (Sample.host Sample.two_sites []) (type exception) = Ok name_text
    /\ (if Js.truthy (Js.get Sample.silent_error "message")
        then to_string (Sample.host Sample.two_sites [])
               (Js.get Sample.silent_error "message")
        else Ok "<no message>") = Ok message_text
    /\ message Sample.silent_event = (name_text ++ ": " ++ message_text)%string.
Proof.
  exact (event_of_error (Sample.host Sample.two_sites []) Sample.silent_error
           Sample.silent_event eq_refl).
Defined.

Lemma set_fresh {V} (ps : list (string * V)) (k : string) (v : V) :
  k ∉ ps.*1 -> Js.set ps k v = (ps ++ [(k, v)])%list.
Proof.
  induction ps as [|[k' v'] ps IH]; intros Hk; [reflexivity|].
  cbn [Js.set]. cbn [fmap list_fmap fst] in Hk.
  destruct (String.eqb_spec k k') as [->|Hne].
  - exfalso. apply Hk. apply list_elem_of_here.
  - rewrite IH; [reflexivity|]. intros H. apply Hk. apply list_elem_of_further, H.
Qed.

Lemma collect_distinct (error : jsobject) (keys : list string) (acc : list (string * jsval)) :
  NoDup keys -> (forall k, k ∈ keys -> k ∉ acc.*1) ->
  foldl (fun extraErrorInfo key => Js.set extraErrorInfo key (Js.get error key)) acc keys
  = (acc ++ ((fun k => (k, Js.get error k)) <$> keys))%list.
Proof.
  revert acc. induction keys as [|key keys IH]; intros acc Hnd Hfresh.
  - simpl. rewrite app_nil_r. reflexivity.
  - apply NoDup_cons in Hnd as [Hkey Hnd]. cbn [foldl fmap list_fmap].
    rewrite set_fresh by (apply Hfresh, list_elem_of_here).
    rewrite IH; [rewrite <- app_assoc; reflexivity | exact Hnd |].
    intros k Hk. rewrite fmap_app, elem_of_app. cbn [fmap list_fmap fst].
    intros [H | H].
    + apply (Hfresh k); [apply list_elem_of_further, Hk | exact H].
    + apply list_elem_of_singleton in H as ->. contradiction.
Qed.

Lemma assoc_distinct {V} (ps : list (string * V)) (k : string) (v : V) :
  NoDup ps.*1 -> (k, v) ∈ ps -> Js.assoc k ps = Some v.
Proof.
  induction ps as [|[k' v'] ps IH]; intros Hnd Hin; [inversion Hin|].
  cbn [fmap list_fmap fst] in Hnd. apply NoDup_cons in Hnd as [Hk' Hnd].
  cbn [Js.assoc]. apply elem_of_cons in Hin as [Heq | Hin].
  - injection Heq as -> ->. rewrite String.eqb_refl. reflexivity.
  - destruct (String.eqb_spec k k') as [->|Hne]; [|apply IH; assumption].
    exfalso. apply Hk'. apply (list_elem_of_fmap_2 fst _ _ Hin).
Qed.

Lemma kept_of_keys (P : string -> bool) (get : string -> jsval) (ps : list (string * jsval)) :
  (forall k v, (k, v) ∈ ps -> get k = v) ->
  (fun k => (k, get k)) <$> List.filter P ps.*1 = List.filter (fun p => P p.1) ps.
Proof.
  induction ps as [|[k v] ps IH]; intros Hget; [reflexivity|].
  cbn [fmap list_fmap fst List.filter].
  rewrite <- IH by (intros k' v' H; apply Hget, list_elem_of_further, H).
  destruct (P k); [|reflexivity].
  cbn [fmap list_fmap]. rewrite (Hget k v) by apply list_elem_of_here. reflexivity.
Qed.

(** X14.  The [extra] of the event is absent when the filter of
    [parseError] keeps no own enumerable property of the error; otherwise
    it has one entry, under the type name as text, that holds the kept
    properties with their values, in the order of [Object.keys]. *)
Theorem extra_of_error (host : Host) (error : jsobject) (event : SentryEvent) (name : jsval) :
  parseError host error = Ok event ->
  errorName error = Ok name ->
  NoDup (Js.keys error) ->
  exists key,
    to_string host name = Ok key
    /\ extra event
       = match kept_properties host error with
         | [] => None
         | kept => Some [(key, kept)]
         end.
Proof.
  intros H Hname Hnd.
  destruct (parseError_inv _ _ _ H)
    as (name' & exception & name_text & message_text & Hn & _ & Hnt & _ & ->).
  rewrite Hname in Hn. injection Hn as <-.
  exists name_text. split; [exact Hnt|]. cbn [extra].
  assert (collectExtra error
            (List.filter (fun key => negb (key_in_reserved host key)) (Js.keys error))
          = kept_properties host error) as Hkept.
  { unfold collectExtra. rewrite collect_distinct.
    - cbn [app]. unfold Js.keys, kept_properties. apply kept_of_keys.
      intros k v Hin. unfold Js.get. rewrite (assoc_distinct _ _ _ Hnd Hin). reflexivity.
    - apply NoDup_ListNoDup, List.NoDup_filter, NoDup_ListNoDup, Hnd.
    - intros k _ H'. inversion H'. }
  assert ((kept_properties host error).*1
          = List.filter (fun key => negb (key_in_reserved host key)) (Js.keys error))
    as Hkeys.
  { unfold kept_properties, Js.keys.
    induction (own_enumerable error) as [|[k v] ps IH]; [reflexivity|].
    cbn [List.filter fmap list_fmap fst]. destruct (negb (key_in_reserved host k));
      cbn [fmap list_fmap fst]; rewrite <- IH; reflexivity. }
  destruct (List.filter (fun key => negb (key_in_reserved host key)) (Js.keys error))
    as [|k ks]; destruct (kept_properties host error) as [|q qs];
    try discriminate Hkeys; [reflexivity|].
  rewrite Hkept. reflexivity.
Qed.

Lemma extra_of_error_witness :
  exists key,
    to_string (Sample.host [] []) (VStr "Error") = Ok key
    /\ extra
         {| exception_values := [];
            message := "";
            extra := Some [("Error", [("customCode", VNum 42)])] |}
       = match kept_properties (Sample.host [] [])
                 (Sample.error_with [("customCode", VNum 42); ("length", VNum 1)]) with
         | [] => None
         | kept => Some [(key, kept)]
         end.
Proof.
  refine (extra_of_error (Sample.host [] [])
            (Sample.error_with [("customCode", VNum 42); ("length", VNum 1)])
            {| exception_values := _; message := _; extra := _ |} (VStr "Error")
            eq_refl eq_refl _).
  apply NoDup_cons. split; [|apply NoDup_singleton].
  intros H. apply list_elem_of_singleton in H. discriminate H.
Defined.

(** ** The store around [prepareFramesForEvent] *)

(** X15.  [prepareFramesForEvent] writes to no array but the one it is
    given: every other array of the store is as before.  For an absent or
    empty argument the result is a new empty array at a reference that was
    not in use, and nothing else changes. *)
Theorem prepareFramesForEvent_other_arrays (h : heap) (stack : option nat) :
  (forall r' arr, h !! r' = Some arr -> stack <> Some r' ->
     (prepareFramesForEvent stack h).2 !! r' = Some arr)
  /\ (stack = None \/ (exists r, stack = Some r /\ h !! r = Some []) ->
      h !! (prepareFramesForEvent stack h).1 = None
      /\ (prepareFramesForEvent stack h).2 = <[(prepareFramesForEvent stack h).1 := []]> h).
Proof.
  assert (h !! fresh (dom h) = None) as Hfresh by apply not_elem_of_dom, is_fresh.
  split.
  - intros r' arr Hr' Hother.
    assert (fresh (dom h) <> r') as Hne' by (intros E; rewrite E in Hfresh; congruence).
    assert (forall s, prepareFramesForEvent s h = alloc [] h ->
              (prepareFramesForEvent s h).2 !! r' = Some arr) as Halloc.
    { intros s ->. unfold alloc. cbn [snd]. rewrite lookup_insert_ne by exact Hne'.
      exact Hr'. }
    destruct stack as [r|]; [|apply Halloc; reflexivity].
    destruct (h !! r) as [[|first rest]|] eqn:Hr.
    + apply Halloc, prepareFramesForEvent_empty. simpl. apply lookup_total_correct, Hr.
    + assert (r <> r') as Hne by congruence.
      destruct (is_capture_frame first) eqn:Hc.
      * rewrite (prepareFramesForEvent_drop _ _ _ _ Hr Hc). cbn [snd].
        rewrite lookup_insert_ne by exact Hne'. exact Hr'.
      * rewrite (prepareFramesForEvent_keep _ _ _ _ Hr Hc). cbn [snd].
        rewrite lookup_insert_ne by exact Hne. exact Hr'.
    + apply Halloc, prepareFramesForEvent_empty. simpl.
      rewrite lookup_total_alt, Hr. reflexivity.
  - intros Hempty. rewrite prepareFramesForEvent_empty.
    + unfold alloc. cbn [fst snd]. split; [exact Hfresh | reflexivity].
    + destruct Hempty as [-> | (r & -> & Hr)]; [exact I|].
      apply lookup_total_correct, Hr.
Qed.

Lemma prepareFramesForEvent_other_arrays_witness :
  (prepareFramesForEvent (Some 0%nat)
     (<[1%nat := [Sample.frame_named "other"]]>
        {[ 0%nat := [Sample.frame_named "inner"; Sample.frame_named "outer"] ]})).2 !! 1%nat
  = Some [Sample.frame_named "other"].
Proof.
  refine (proj1 (prepareFramesForEvent_other_arrays
                   (<[1%nat := [Sample.frame_named "other"]]>
                      {[ 0%nat := [Sample.frame_named "inner"; Sample.frame_named "outer"] ]})
                   (Some 0%nat)) 1%nat [Sample.frame_named "other"] eq_refl _).
  discriminate.
Defined.

(** X16.  A second call on the array that a first call reversed in place
    puts it back: when neither the first nor the last frame of a non-empty
    array is a capture frame, two calls of [prepareFramesForEvent] on it
    leave the store as it was. *)
Theorem prepareFramesForEvent_twice (h : heap) (r : nat) (first last_frame : StackFrame)
    (rest : list StackFrame) :
  h !! r = Some (first :: rest) ->
  last (first :: rest) = Some last_frame ->
  is_capture_frame first = false ->
  is_capture_frame last_frame = false ->
  prepareFramesForEvent (Some r) (prepareFramesForEvent (Some r) h).2 = (r, h).
Proof.
  intros Hr Hlast Hfirst Hl.
  rewrite (prepareFramesForEvent_keep _ _ _ _ Hr Hfirst). cbn [snd].
  destruct (rev (first :: rest)) as [|f' rest'] eqn:Hrev.
  { apply (f_equal (@length _)) in Hrev. rewrite length_rev in Hrev. discriminate. }
  assert (f' = last_frame) as ->.
  { apply (f_equal (@rev _)) in Hrev. rewrite rev_involutive in Hrev.
    rewrite Hrev in Hlast. cbn [rev] in Hlast. rewrite last_snoc in Hlast.
    congruence. }
  rewrite (prepareFramesForEvent_keep _ r last_frame rest' (lookup_insert_eq _ _ _) Hl).
  rewrite <- Hrev, rev_involutive, insert_insert_eq, insert_id by exact Hr. reflexivity.
Qed.

Lemma prepareFramesForEvent_twice_witness :
  prepareFramesForEvent (Some 0%nat)
    (prepareFramesForEvent (Some 0%nat)
       {[ 0%nat := [Sample.frame_named "inner"; Sample.frame_named "outer"] ]}).2
  = (0%nat, {[ 0%nat := [Sample.frame_named "inner"; Sample.frame_named "outer"] ]}).
Proof.
  exact (prepareFramesForEvent_twice
           {[ 0%nat := [Sample.frame_named "inner"; Sample.frame_named "outer"] ]} 0%nat
           (Sample.frame_named "inner") (Sample.frame_named "outer")
           [Sample.frame_named "outer"] (lookup_singleton_eq _ _) eq_refl eq_refl eq_refl).
Defined.

(** ** Module names in general *)

Lemma str_app_cons (x : ascii) (a b : string) :
  (String x a ++ b)%string = String x (a ++ b).
Proof. reflexivity. Qed.

Lemma str_app_nil (b : string) : ("" ++ b)%string = b.
Proof. reflexivity. Qed.

Lemma str_app_assoc (a b c : string) : ((a ++ b) ++ c)%string = (a ++ (b ++ c))%string.
Proof.
  induction a as [|x a IH]; [reflexivity|].
  rewrite !str_app_cons, IH. reflexivity.
Qed.

Lemma str_length_app (a b : string) :
  String.length (a ++ b) = (String.length a + String.length b)%nat.
Proof.
  induction a as [|x a IH]; [reflexivity|].
  rewrite str_app_cons. simpl. rewrite IH. reflexivity.
Qed.

Lemma prefix_app (p s : string) : String.prefix p (p ++ s) = true.
Proof.
  induction p as [|x p IH]; [destruct s; reflexivity|].
  rewrite str_app_cons. simpl. destruct (ascii_dec x x); [exact IH | contradiction].
Qed.

Lemma substring_skip (p s : string) (m : nat) :
  String.substring (String.length p) m (p ++ s) = String.substring 0 m s.
Proof.
  induction p as [|x p IH]; [reflexivity|].
  rewrite str_app_cons. simpl. exact IH.
Qed.

Lemma substring_all (s : string) : String.substring 0 (String.length s) s = s.
Proof. induction s as [|x s IH]; simpl; [reflexivity | f_equal; exact IH]. Qed.

Lemma substring_none (n : nat) (s : string) : String.substring n 0 s = "".
Proof.
  revert s. induction n as [|n IH]; intros s; [destruct s; reflexivity|].
  destruct s as [|x s]; [reflexivity | apply IH].
Qed.

(** [s.substr(p.length)] on [p + s] and on [p] without its last character. *)
Lemma substr_app (p s : string) :
  JsString.substr (p ++ s) (Z.of_nat (String.length p)) = s.
Proof.
  unfold JsString.substr. rewrite Nat2Z.id, str_length_app.
  replace (String.length p + String.length s - String.length p)%nat
    with (String.length s) by lia.
  rewrite substring_skip. apply substring_all.
Qed.

Lemma substr_beyond (d : string) :
  JsString.substr d (Z.of_nat (String.length (d ++ "/"))) = "".
Proof.
  unfold JsString.substr. rewrite Nat2Z.id, str_length_app. simpl String.length.
  replace (String.length d - (String.length d + 1))%nat with 0%nat by lia.
  apply substring_none.
Qed.

Lemma lastIndexOf_at_start (s p : string) :
  JsString.lastIndexOf s p (Some 0) = if String.prefix p s then 0 else -1.
Proof.
  unfold JsString.lastIndexOf. simpl Z.to_nat.
  destruct s as [|x s]; cbn [JsString.find_last_upto];
    [destruct (String.prefix p "") | destruct (String.prefix p (String x s))];
    reflexivity.
Qed.

Lemma find_last_none (p s : string) (limit : nat) :
  JsString.find_first p s = None -> JsString.find_last_upto p s limit = None.
Proof.
  revert limit. induction s as [|x s IH]; intros limit H.
  - simpl in *. destruct limit; destruct (String.prefix p ""); congruence.
  - cbn [JsString.find_first] in H.
    destruct (String.prefix p (String x s)) eqn:Hp; [discriminate|].
    destruct (JsString.find_first p s) eqn:Hs; [discriminate|].
    destruct limit as [|limit]; cbn [JsString.find_last_upto]; rewrite ?Hp; [reflexivity|].
    rewrite (IH limit eq_refl). reflexivity.
Qed.

Lemma includes_false (s p : string) :
  JsString.includes s p = false -> JsString.find_first p s = None.
Proof.
  unfold JsString.includes. intros H. apply bool_decide_eq_false in H.
  destruct (JsString.find_first p s); [exfalso; apply H; eauto | reflexivity].
Qed.

(** The last occurrence of a pattern that starts with [c]: it is where the
    pattern stands when the pattern does not occur again further on. *)
Lemma lastIndexOf_last (before : string) (c : ascii) (pat after : string) :
  JsString.includes (pat ++ after) (String c pat) = false ->
  JsString.lastIndexOf (before ++ String c pat ++ after) (String c pat) None
  = Z.of_nat (String.length before).
Proof.
  intros Hno. unfold JsString.lastIndexOf.
  assert (JsString.find_last_upto (String c pat) (before ++ String c pat ++ after)
            (String.length (before ++ String c pat ++ after))
          = Some (String.length before)) as ->; [|reflexivity].
  induction before as [|x before IH].
  - rewrite str_app_nil. pose proof (prefix_app (String c pat) after) as Hp.
    rewrite str_app_cons in *. cbn [String.length JsString.find_last_upto].
    rewrite (find_last_none _ _ _ (includes_false _ _ Hno)), Hp. reflexivity.
  - rewrite str_app_cons. cbn [String.length JsString.find_last_upto].
    rewrite IH. reflexivity.
Qed.

Lemma replace_slashes_has_none (s : string) :
  JsString.includes (JsString.replace_slashes s) "/" = false.
Proof.
  unfold JsString.includes. apply bool_decide_eq_false_2. intros [k Hk].
  revert k Hk. induction s as [|x s IH]; intros k Hk; [discriminate Hk|].
  cbn [JsString.replace_slashes JsString.find_first String.prefix] in Hk.
  destruct (ascii_dec "/" (if Ascii.eqb x "/" then "."%char else x)) as [E|_].
  - destruct (Ascii.eqb_spec x "/") as [->|Hx]; [discriminate E | congruence].
  - destruct (JsString.find_first "/" (JsString.replace_slashes s)) as [k'|] eqn:Hs;
      [apply (IH k' eq_refl) | discriminate Hk].
Qed.

(** X17.  A module name is the file stem, alone or after a prefix that
    ends with a colon and contains no slash: the directory part is dotted,
    whatever the file name and the base are. *)
Theorem getModule_shape (host : Host) (filename : string) (base : option string) :
  getModule host filename base = NodePath.basename filename ".js"
  \/ exists p,
       getModule host filename base = (p ++ ":" ++ NodePath.basename filename ".js")%string
       /\ JsString.includes p "/" = false.
Proof.
  unfold getModule.
  destruct (JsString.lastIndexOf (NodePath.dirname filename) "/node_modules/" None >? -1).
  - right. eexists. split; [reflexivity | apply replace_slashes_has_none].
  - destruct (JsString.lastIndexOf _ _ (Some 0) =? 0); [|left; reflexivity].
    match goal with
    | |- context [String.eqb ?m ""] => destruct (String.eqb_spec m "") as [->|_]
    end.
    + left. reflexivity.
    + right. eexists. split; [apply str_app_assoc | apply replace_slashes_has_none].
Qed.

Lemma prefix_refl (p : string) : String.prefix p p = true.
Proof.
  induction p as [|x p IH]; [reflexivity|].
  simpl. destruct (ascii_dec x x); [exact IH | contradiction].
Qed.

Lemma str_app_not_empty (d : string) : String.eqb (d ++ "/") "" = false.
Proof. destruct d; reflexivity. Qed.

Lemma replace_slashes_not_empty (s : string) :
  s <> "" -> String.eqb (JsString.replace_slashes s) "" = false.
Proof. destruct s; [contradiction | reflexivity]. Qed.

(** [getModule] outside [node_modules], once the base is resolved. *)
Lemma getModule_resolved (host : Host) (filename : string) (base : option string)
    (d : string) :
  base = Some (d ++ "/")%string \/ (base = None /\ mainModule host = (d ++ "/")%string) ->
  JsString.lastIndexOf (NodePath.dirname filename) "/node_modules/" None = -1 ->
  getModule host filename base
  = if String.prefix (d ++ "/") (NodePath.dirname filename ++ "/")
    then
      (let moduleName :=
         JsString.replace_slashes
           (JsString.substr (NodePath.dirname filename)
              (Z.of_nat (String.length (d ++ "/")))) in
       (if String.eqb moduleName "" then moduleName else moduleName ++ ":")
       ++ NodePath.basename filename ".js")%string
    else NodePath.basename filename ".js".
Proof.
  intros Hbase Hno. unfold getModule. rewrite Hno. change (-1 >? -1) with false.
  cbv beta iota.
  assert (match base with
          | Some b => if String.eqb b "" then mainModule host else b
          | None => mainModule host
          end = (d ++ "/")%string) as ->.
  { destruct Hbase as [-> | [-> ->]]; [rewrite str_app_not_empty|]; reflexivity. }
  rewrite lastIndexOf_at_start.
  destruct (String.prefix (d ++ "/") (NodePath.dirname filename ++ "/")); reflexivity.
Qed.

(** X18.  Relative to a base [d/] (given, or the entry directory when no
    base is given), a file outside [node_modules] is named after its place
    under [d]: by its stem alone when it lies in [d] itself, by the dotted
    relative directory, a colon and the stem when it lies in [d/rel], and
    by its stem alone when its directory is not under [d]. *)
Theorem getModule_relative (host : Host) (filename : string) (base : option string)
    (d rel : string) :
  base = Some (d ++ "/")%string \/ (base = None /\ mainModule host = (d ++ "/")%string) ->
  JsString.lastIndexOf (NodePath.dirname filename) "/node_modules/" None = -1 ->
  (NodePath.dirname filename = d ->
   getModule host filename base = NodePath.basename filename ".js")
  /\ (NodePath.dirname filename = (d ++ "/" ++ rel)%string -> rel <> "" ->
      getModule host filename base
      = (JsString.replace_slashes rel ++ ":" ++ NodePath.basename filename ".js")%string)
  /\ (String.prefix (d ++ "/") (NodePath.dirname filename ++ "/") = false ->
      getModule host filename base = NodePath.basename filename ".js").
Proof.
  intros Hbase Hno. rewrite (getModule_resolved host filename base d Hbase Hno).
  split; [|split].
  - intros ->. rewrite prefix_refl. cbv zeta. rewrite substr_beyond. reflexivity.
  - intros -> Hrel. rewrite <- (str_app_assoc d "/" rel) at 1.
    rewrite (str_app_assoc (d ++ "/") rel "/"), prefix_app. cbv zeta.
    rewrite <- (str_app_assoc d "/" rel), substr_app.
    rewrite (replace_slashes_not_empty rel Hrel). apply str_app_assoc.
  - intros ->. reflexivity.
Qed.

Lemma getModule_relative_witness :
  getModule (Sample.host [] []) "/app/lib/util/foo.js" None
  = (JsString.replace_slashes "lib/util" ++ ":"
     ++ NodePath.basename "/app/lib/util/foo.js" ".js")%string.
Proof.
  refine (proj1 (proj2 (getModule_relative (Sample.host [] []) "/app/lib/util/foo.js" None
                          "/app" "lib/util" _ eq_refl)) eq_refl _).
  - right. split; reflexivity.
  - discriminate.
Defined.

(** X19.  A file under [node_modules] is named after its place in the
    innermost package directory: when the directory is
    [before/node_modules/pkg] and no further [/node_modules/] follows, the
    name is the dotted [pkg], a colon and the stem, whatever comes before
    and whatever the base is. *)
Theorem getModule_innermost_package (host : Host) (filename : string) (base : option string)
    (before pkg : string) :
  NodePath.dirname filename = (before ++ "/node_modules/" ++ pkg)%string ->
  JsString.includes ("node_modules/" ++ pkg) "/node_modules/" = false ->
  getModule host filename base
  = (JsString.replace_slashes pkg ++ ":" ++ NodePath.basename filename ".js")%string.
Proof.
  intros Hdir Hno. unfold getModule. rewrite Hdir.
  rewrite (lastIndexOf_last before "/" "node_modules/" pkg Hno).
  destruct (Z.gtb_spec (Z.of_nat (String.length before)) (-1)) as [_|?]; [|lia].
  replace (Z.of_nat (String.length before) + 14)
    with (Z.of_nat (String.length (before ++ "/node_modules/")))
    by (rewrite str_length_app; simpl String.length; lia).
  rewrite <- (str_app_assoc before "/node_modules/" pkg), substr_app. reflexivity.
Qed.

Lemma getModule_innermost_package_witness :
  getModule (Sample.host [] []) "/app/node_modules/a/node_modules/b/lib/x.js" None
  = (JsString.replace_slashes "b/lib" ++ ":"
     ++ NodePath.basename "/app/node_modules/a/node_modules/b/lib/x.js" ".js")%string.
Proof.
  exact (getModule_innermost_package (Sample.host [] [])
           "/app/node_modules/a/node_modules/b/lib/x.js" None "/app/node_modules/a" "b/lib"
           eq_refl eq_refl).
Defined.

(** ** What every frame has, and which frames get context *)

Lemma getFunction_not_empty (site : CallSite) : getFunction site <> "".
Proof.
  unfold getFunction.
  destruct (getFunctionName site) as [fn|e]; [|discriminate]. cbn [mbind result_bind].
  destruct fn as [| |s]; cbn [Js.truthy_name].
  3: destruct (String.eqb_spec s "") as [->|Hs]; cbn [negb]; [|exact Hs].
  all: destruct (getTypeName site) as [ty|e]; [|discriminate]; cbn [mbind result_bind];
    destruct (getMethodName site) as [me|e]; [|discriminate]; cbn [mbind result_bind];
    destruct (Js.name_to_string ty); discriminate.
Qed.

(** X20.  Every frame of [parseStack] has a function name, and it is never
    the empty string: it is the reported name, a name with a dot in it, or
    [<anonymous>]. *)
Theorem parseStack_function_present (host : Host) (stack : list CallSite)
    (parsed : list StackFrame) (frame : StackFrame) :
  parseStack host stack = Ok parsed ->
  frame ∈ parsed ->
  exists f, function frame = Some f /\ f <> "".
Proof.
  rewrite parseStack_unfold. intros Hp Hin. injection Hp as <-.
  apply list_elem_of_fmap in Hin as (site & -> & _).
  exists (getFunction site). split; [|apply getFunction_not_empty].
  destruct (addContext_base_fields host
              (readSourceFiles host (omap requested_file stack))
              (parseFrame host site []).1) as (_ & Hf & _).
  etransitivity; [exact Hf | reflexivity].
Qed.

Lemma parseStack_function_present_witness :
  exists f,
    function
      {| colno := Some 3; filename := Some "/app/a.js"; function := Some "null.<anonymous>";
         lineno := Some 1; in_app := Some true; module := Some "a";
         pre_context := None; context_line := None; post_context := None |}
    = Some f /\ f <> "".
Proof.
  apply (parseStack_function_present (Sample.host [] []) [Sample.nameless_site] _ _ eq_refl).
  apply list_elem_of_here.
Defined.

Lemma result_map_total {A B} (f : A -> result B) (l : list A) :
  (forall x, exists y, f x = Ok y) -> exists ys, result_map f l = Ok ys.
Proof.
  intros Hf. induction l as [|x l [ys IH]]; [eexists; reflexivity|].
  destruct (Hf x) as [y Hy]. exists (y :: ys). simpl. rewrite Hy. cbn [mbind result_bind].
  rewrite IH. reflexivity.
Qed.

Lemma requested_not_proto (site : CallSite) :
  requested_file site <> Some "__proto__".
Proof.
  unfold requested_file. intros H.
  destruct (String.eqb (site_filename site) ""); [discriminate|].
  destruct (isInternal site (site_filename site)) eqn:Hint; [discriminate|].
  injection H as H. rewrite H in Hint. unfold isInternal in Hint.
  destruct (isNative site); discriminate.
Qed.

Lemma addContext_adds_pre (host : Host) (sourceFiles : source_files) (frame : StackFrame)
    (name content : string) :
  filename frame = Some name -> name <> "" ->
  sourceFiles !! name = Some content -> content <> "" ->
  (forall l, exists out, snipLine host (Some l) 0 = Ok out) ->
  is_Some (pre_context (addContext host sourceFiles frame)).
Proof.
  intros Hfile Hne Hsrc Hcontent Hsnip.
  unfold addContext. rewrite Hfile. unfold lookup_source. rewrite Hsrc.
  destruct (String.eqb_spec name ""); [contradiction|].
  cbn [negb andb Js.truthy]. destruct (String.eqb_spec content ""); [contradiction|].
  cbn [negb]. unfold addContextLines.
  destruct (result_map_total (fun line => snipLine host (Some line) 0)
              (JsArray.slice (JsString.split_lines content)
                 (Z.max 0 (Js.num_or_zero (lineno frame) - (LINES_OF_CONTEXT + 1)))
                 (Js.num_or_zero (lineno frame) - 1)) Hsnip) as [pre ->].
  repeat match goal with
         | |- context [match ?r with Ok _ => _ | Throw _ => _ end] => destruct r
         end; eexists; reflexivity.
Qed.

(** X21.  The frame of a call site whose file is requested (a non-empty
    file name, not internal) gets a [pre_context] whenever the read of the
    file returns a non-empty text and [snipLine] returns on every line of
    a file: this holds for frames under [node_modules/] as well. *)
Theorem parseStack_adds_context (host : Host) (stack : list CallSite)
    (parsed : list StackFrame) (i : nat) (site : CallSite) (frame : StackFrame)
    (name content : string) :
  parseStack host stack = Ok parsed ->
  stack !! i = Some site ->
  parsed !! i = Some frame ->
  requested_file site = Some name ->
  readFileAsync host name = Ok (VStr content) ->
  content <> "" ->
  (forall l, exists out, snipLine host (Some l) 0 = Ok out) ->
  is_Some (pre_context frame).
Proof.
  rewrite parseStack_unfold. intros Hp Hi Hf Hreq Hread Hcontent Hsnip.
  set (sourceFiles := readSourceFiles host (omap requested_file stack)) in *.
  assert (parsed = (fun site => addContext host sourceFiles (parseFrame host site []).1)
                     <$> stack) as -> by congruence.
  rewrite list_lookup_fmap, Hi in Hf. injection Hf as <-.
  assert (sourceFiles !! name = Some content) as Hsrc.
  { apply readSourceFiles_lookup_iff. split; [|split; [|exact Hread]].
    - apply list_elem_of_omap. exists site. split; [|exact Hreq].
      apply list_elem_of_lookup. eauto.
    - intros ->. exact (requested_not_proto site Hreq). }
  assert (site_filename site = name /\ name <> "") as [Hname Hne].
  { unfold requested_file in Hreq.
    destruct (String.eqb_spec (site_filename site) "") as [?|Hne]; [discriminate|].
    destruct (isInternal site (site_filename site)); [discriminate|].
    injection Hreq as <-. auto. }
  apply (addContext_adds_pre host sourceFiles _ name content); try assumption.
  rewrite <- Hname. reflexivity.
Qed.

Lemma parseStack_adds_context_witness :
  is_Some
    (pre_context
       {| colno := Some 1; filename := Some "/app/node_modules/p/i.js";
          function := Some "f"; lineno := Some 2; in_app := Some false;
          module := Some "p:i"; pre_context := Some ["a"]; context_line := Some "b";
          post_context := Some ["c"] |}).
Proof.
  refine (parseStack_adds_context
            (Sample.host [] [("/app/node_modules/p/i.js", Sample.text_of ["a"; "b"; "c"])])
            [Sample.site (NStr "f") (NStr "/app/node_modules/p/i.js") 2 1] _ 0%nat _ _
            "/app/node_modules/p/i.js" (Sample.text_of ["a"; "b"; "c"])
            eq_refl eq_refl eq_refl eq_refl eq_refl _ _).
  - discriminate.
  - intros l. exists l. reflexivity.
Defined.

Lemma parseStack_frame_of_site_witness :
  exists parsed,
    parseStack (Sample.host [] []) Sample.two_sites = Ok parsed
    /\ length parsed = length Sample.two_sites
    /\ exists frame,
         parsed !! 1%nat = Some frame
         /\ colno frame = Some 1
         /\ lineno frame = Some 20
         /\ filename frame = Some "/app/a.js"
         /\ function frame = Some "outer"
         /\ module frame = Some "a".
Proof.
  destruct (parseStack_frame_of_site (Sample.host [] []) Sample.two_sites)
    as (parsed & Hp & Hlen & Hframes).
  exists parsed. split; [exact Hp|]. split; [exact Hlen|].
  exact (Hframes 1%nat (Sample.site (NStr "outer") (NStr "/app/a.js") 20 1) eq_refl).
Defined.

(** ** The default base *)

Lemma dirname_scan_positive (path : string) (i : nat) (matched : bool) (e : nat) :
  NodePath.dirname_scan path i matched = Some e -> (1 <= e)%nat.
Proof.
  revert matched. induction i as [|i IH]; intros matched H; [discriminate|].
  cbn [NodePath.dirname_scan] in H.
  destruct (NodePath.is_slash path (S i)).
  - destruct matched; [apply (IH _ H) | injection H as <-; lia].
  - apply (IH _ H).
Qed.

Lemma dirname_not_empty (path : string) : NodePath.dirname path <> "".
Proof.
  unfold NodePath.dirname. destruct (String.eqb_spec path "") as [_|Hpath]; [discriminate|].
  destruct (NodePath.dirname_scan path (String.length path - 1) true) as [e|] eqn:Hscan.
  - destruct (NodePath.is_slash path 0 && (e =? 1)%nat); [discriminate|].
    apply dirname_scan_positive in Hscan. unfold NodePath.str_slice.
    rewrite Z.sub_0_r, Nat2Z.id. simpl (Z.to_nat 0).
    destruct path as [|c path]; [contradiction|].
    destruct e as [|e]; [lia | discriminate].
  - destruct (NodePath.is_slash path 0); discriminate.
Qed.

(** X22.  The default base is the directory of the main entry file and a
    slash (the working directory and a slash when there is no entry file):
    with it, a file that lies in the directory of the entry file and not
    under [node_modules] is named by its stem alone. *)
Theorem getModule_beside_main (host : Host) (main cwd filename : string) :
  mainModule host = computeMainModule (NStr main) cwd ->
  main <> "" ->
  mainModule host = (NodePath.dirname main ++ "/")%string
  /\ (NodePath.dirname filename = NodePath.dirname main ->
      JsString.lastIndexOf (NodePath.dirname filename) "/node_modules/" None = -1 ->
      getModule host filename None = NodePath.basename filename ".js").
Proof.
  intros Hmain Hne.
  assert (mainModule host = (NodePath.dirname main ++ "/")%string) as Hbase.
  { rewrite Hmain. unfold computeMainModule.
    destruct (String.eqb_spec main ""); [contradiction|].
    destruct (String.eqb_spec (NodePath.dirname main) "") as [E|_]; [|reflexivity].
    exfalso. exact (dirname_not_empty main E). }
  split; [exact Hbase|]. intros Hdir Hno.
  rewrite (getModule_resolved host filename None (NodePath.dirname main)
             (or_intror (conj eq_refl Hbase)) Hno).
  rewrite Hdir, prefix_refl. cbv zeta. rewrite substr_beyond. reflexivity.
Qed.

Lemma getModule_beside_main_witness :
  mainModule (Sample.host [] []) = (NodePath.dirname "/app/server.js" ++ "/")%string
  /\ (NodePath.dirname "/app/routes.js" = NodePath.dirname "/app/server.js" ->
      JsString.lastIndexOf (NodePath.dirname "/app/routes.js") "/node_modules/" None = -1 ->
      getModule (Sample.host [] []) "/app/routes.js" None
      = NodePath.basename "/app/routes.js" ".js").
Proof.
  apply (getModule_beside_main (Sample.host [] []) "/app/server.js" "/tmp" "/app/routes.js");
    [reflexivity | discriminate].
Defined.
